(** * Athena Pools Task Scheduler: the pages' data and handlers

    The application keeps its data in hard-coded arrays, one per page
    module, and in the React state of the mounted page.  Each page is
    embedded here as
    - its seed array (a module constant of the source),
    - its component state (the [useState] cells),
    - the body of its [useEffect], which loads the state from the seed,
    - its event handlers, as functions on the component state,
    - its render gate (loading / not found / page).

    The repository vocabulary of the specification ([getJob],
    [updateJob], [listTasks], [getTask], [updateTask],
    [toggleCompletion]) is read on the pages that play that role: a
    lookup is the page's load effect followed by its render gate, an
    update is the sequence of change events a form receives followed by
    its submit handler, a toggle is the checkbox handler of the task
    list. *)

From Stdlib Require Import Ascii String List Bool PeanoNat Permutation.
Import ListNotations.
Local Open Scope string_scope.
Local Open Scope list_scope.

(** ** Data model *)

(** [interface Task] of the task pages. *)
Module Task.
Record t : Type := mk {
  id : string;
  title : string;
  description : string;
  completed : bool;
  dueDate : string;
  notes : string
}.
End Task.

(** [interface Job].  The jobs list and the edit-job page declare
    [tasks: string[]], the task pages declare [tasks: Task[]]; the
    record is parametric in the element type. *)
Module Job.
Record t (T : Type) : Type := mk {
  id : string;
  jobName : string;
  clientName : string;
  status : string;
  gateCode : string;
  notes : string;
  tasks : list T
}.
Arguments mk {T} _ _ _ _ _ _ _.
Arguments id {T} _.
Arguments jobName {T} _.
Arguments clientName {T} _.
Arguments status {T} _.
Arguments gateCode {T} _.
Arguments notes {T} _.
Arguments tasks {T} _.
End Job.

(** JavaScript truthiness of a string: every string but the empty one.
    ([undefined], which a short path would give for a path segment, is
    falsy like the empty string and is represented by it.) *)
Definition truthy (s : string) : bool := negb (s =? "").

(** ** Paths *)

(** [s.split(sep)] for a one-character separator: the segments between
    the separators, in order; a string without separator is its own
    single segment, the empty string included. *)
Fixpoint split (sep : ascii) (s : string) : list string :=
  match s with
  | EmptyString => [""]
  | String c rest =>
      if Ascii.eqb c sep then "" :: split sep rest
      else match split sep rest with
           | seg :: segs => String c seg :: segs
           | [] => [String c ""]
           end
  end.

(** [pathname.split('/')[n]].  Past the last segment JavaScript gives
    [undefined], represented by the empty string as for [truthy]. *)
Definition segment (n : nat) (pathname : string) : string :=
  nth n (split "/"%char pathname) "".

(** Whether a character occurs in a string. *)
Fixpoint contains (c : ascii) (s : string) : bool :=
  match s with
  | EmptyString => false
  | String c' rest => Ascii.eqb c' c || contains c rest
  end.

(** Observable effects of a handler or of a load effect. *)
Inductive Effect (A : Type) : Type :=
| ConsoleError (msg : string)
| ConsoleLog (msg : string) (payload : option A)
| Alert (msg : string)
| RouterPush (path : string).
Arguments ConsoleError {A} msg.
Arguments ConsoleLog {A} msg payload.
Arguments Alert {A} msg.
Arguments RouterPush {A} path.

(** What a page renders once its state is known: the three early
    returns of every page component. *)
Inductive View (A : Type) : Type :=
| Loading (msg : string)
| NotFoundMsg (msg : string)
| Page (a : A).
Arguments Loading {A} msg.
Arguments NotFoundMsg {A} msg.
Arguments Page {A} a.

(** Error kinds named by the specification.  A page signals [NotFound]
    by rendering its not-found message; no page has a rendering for the
    other two kinds. *)
Inductive RepoError : Type := NotFound | ValidationError | Unavailable.

Definition signal {A : Type} (v : View A) : option RepoError :=
  match v with
  | NotFoundMsg _ => Some NotFound
  | Loading _ | Page _ => None
  end.

(** The status enumeration of the jobs page ([statusColors]). *)
Definition statusColors : list (string * string) :=
  [ ("Scheduled", "bg-blue-500");
    ("In Progress", "bg-yellow-500");
    ("Completed", "bg-green-500");
    ("Overdue", "bg-red-500") ].

Definition in_enumeration (s : string) : bool :=
  existsb (fun kv => fst kv =? s) statusColors.

(** ** Jobs list page *)

Module Jobs.
Definition Job : Type := Job.t string.

(** [const jobs] of the [Jobs] component. *)
Definition jobs : list Job :=
  [ Job.mk "1" "Lot 3" "Cindy McKinny" "In Progress" "4729" ""
      ["Excavation"; "Steel"; "Plumbing"];
    Job.mk "2" "Sage Thrasher" "X" "Scheduled" "" ""
      ["Demo"; "Steel"; "Plumbing"];
    Job.mk "3" "Emergency Repair - Wilson Pool" "Mike Wilson" "Overdue" "" ""
      ["Replace pump"; "Check electrical connections"; "Test system"] ].

(** The page renders [jobs.map(...)]: one card per element, in order. *)
Definition listJobs : list Job := jobs.

(** The "View Tasks" link of a card: [`/jobs/${job.id}/tasks`]. *)
Definition tasksHref (job : Job) : string := "/jobs/" ++ Job.id job ++ "/tasks".
End Jobs.

(** ** Edit-job page *)

Module EditJob.
Definition Job : Type := Job.t string.

(** [const allJobs] of the edit-job module. *)
Definition allJobs : list Job :=
  [ Job.mk "1" "Lot 3" "Cindy McKinny" "In Progress" "4729" ""
      ["Excavation"; "Steel"; "Plumbing"];
    Job.mk "2" "Sage Thrasher" "X" "Scheduled" "" ""
      ["Demo"; "Steel"; "Plumbing"];
    Job.mk "3" "Emergency Repair - Wilson Pool" "Mike Wilson" "Overdue" "" ""
      ["Replace pump"; "Check electrical connections"; "Test system"] ].

(** [useState<Job | null>(null)] and [useState(true)]. *)
Record State : Type := mkState {
  job : option Job;
  loading : bool
}.

Definition initial : State := mkState None true.

(** The [name] attributes of the five controls of the form, the only
    values [e.target.name] takes. *)
Inductive InputName : Type :=
| in_jobName | in_clientName | in_gateCode | in_notes | in_status.

(** [{ ...prevJob, [name]: value }]. *)
Definition assign (name : InputName) (value : string) (prevJob : Job) : Job :=
  match name with
  | in_jobName =>
      Job.mk (Job.id prevJob) value (Job.clientName prevJob) (Job.status prevJob)
             (Job.gateCode prevJob) (Job.notes prevJob) (Job.tasks prevJob)
  | in_clientName =>
      Job.mk (Job.id prevJob) (Job.jobName prevJob) value (Job.status prevJob)
             (Job.gateCode prevJob) (Job.notes prevJob) (Job.tasks prevJob)
  | in_gateCode =>
      Job.mk (Job.id prevJob) (Job.jobName prevJob) (Job.clientName prevJob)
             (Job.status prevJob) value (Job.notes prevJob) (Job.tasks prevJob)
  | in_notes =>
      Job.mk (Job.id prevJob) (Job.jobName prevJob) (Job.clientName prevJob)
             (Job.status prevJob) (Job.gateCode prevJob) value (Job.tasks prevJob)
  | in_status =>
      Job.mk (Job.id prevJob) (Job.jobName prevJob) (Job.clientName prevJob) value
             (Job.gateCode prevJob) (Job.notes prevJob) (Job.tasks prevJob)
  end.

(** Reading a field back, [job[name]]. *)
Definition field (name : InputName) (j : Job) : string :=
  match name with
  | in_jobName => Job.jobName j
  | in_clientName => Job.clientName j
  | in_gateCode => Job.gateCode j
  | in_notes => Job.notes j
  | in_status => Job.status j
  end.

Definition InputName_eqb (a b : InputName) : bool :=
  match a, b with
  | in_jobName, in_jobName | in_clientName, in_clientName
  | in_gateCode, in_gateCode | in_notes, in_notes | in_status, in_status => true
  | _, _ => false
  end.

(** The body of the [useEffect]: look the job up by the id taken from
    the path. *)
Definition useEffect (store : list Job) (id : string) (st : State)
  : State * list (Effect Job) :=
  if truthy id then
    match find (fun j => Job.id j =? id) store with
    | Some foundJob => (mkState (Some foundJob) false, [])
    | None =>
        (mkState (job st) false,
         [ConsoleError ("Job not found for ID: " ++ id); RouterPush "/404"])
    end
  else (mkState (job st) false, []).

(** [handleChange]: [setJob(prevJob => prevJob ? {...prevJob, [name]: value} : null)]. *)
Definition handleChange (name : InputName) (value : string) (st : State) : State :=
  mkState
    (match job st with
     | None => None
     | Some prevJob => Some (assign name value prevJob)
     end)
    (loading st).

(** [handleSubmit]: logs the edited job, alerts, navigates to the jobs
    list.  Nothing is written to [allJobs]. *)
Definition handleSubmit (st : State) : list (Effect Job) :=
  [ ConsoleLog "Saving changes for job:" (job st);
    Alert "Job updated! (Simulated save)";
    RouterPush "/jobs" ].

(** The render gate of the component. *)
Definition render (st : State) : View Job :=
  if loading st then Loading "Loading job details..."
  else match job st with
       | None => NotFoundMsg "Job not found. Please check the URL."
       | Some j => Page j
       end.

(** A patch is the sequence of change events the form receives. *)
Definition Patch : Type := list (InputName * string).

Definition applyPatch (patch : Patch) (st : State) : State :=
  fold_left (fun s nv => handleChange (fst nv) (snd nv) s) patch st.

(** [getJob]: entering the page for [id]. *)
Definition getJob (store : list Job) (id : string) : View Job :=
  render (fst (useEffect store id initial)).

(** Result of an edit session: the seed array as the session leaves
    it, what the page showed when the session ended, and the effects
    the session produced. *)
Record Outcome : Type := mkOutcome {
  store_after : list Job;
  result : View Job;
  effects : list (Effect Job)
}.

(** [updateJob]: enter the page for [id]; the form exists only when
    the page is rendered, and then it receives the change events of
    the patch and the submit.  No statement of the module assigns to
    [allJobs] or to one of its elements ([handleChange] copies with a
    spread), so the seed array comes back as it was. *)
Definition updateJob (store : list Job) (id : string) (patch : Patch) : Outcome :=
  let '(st, fx) := useEffect store id initial in
  match render st with
  | Page _ =>
      let st' := applyPatch patch st in
      mkOutcome store (render st') (fx ++ handleSubmit st')
  | v => mkOutcome store v fx
  end.

(** [const id = pathname.split('/')[2]]. *)
Definition idOfPath (pathname : string) : string := segment 2 pathname.

(** The component at a pathname: what it shows once its effect ran. *)
Definition page (store : list Job) (pathname : string) : View Job :=
  getJob store (idOfPath pathname).

(** The shape of pathname the component assumes, ['/jobs/[id]/edit'],
    with a given third part. *)
Definition route (part : string) : string := "/jobs/" ++ part ++ "/edit".
End EditJob.

(** The constraints the specification puts on a job: [jobName] and
    [clientName] not empty, [status] in the enumeration.  No page
    evaluates them; they are stated here to name the patches the
    specification calls invalid. *)
Definition spec_job_violation (j : EditJob.Job) : bool :=
  (Job.jobName j =? "") || (Job.clientName j =? "")
  || negb (in_enumeration (Job.status j)).

(** ** Seed data of the task pages *)

(** [const initialJobs]: the edit-task module (in both files that
    hold it) and the task-list module each declare this literal, field
    for field the same, so it is written once and named in both modules
    below. *)
Definition seedJobsWithTasks : list (Job.t Task.t) :=
  [ Job.mk "1" "Lot 3" "Cindy McKinny" "In Progress" "4729" ""
      [ Task.mk "1-1" "Excavation" "Test pH, chlorine, and alkalinity levels"
                true "2025-06-04" "";
        Task.mk "1-2" "Steel" "Jaime Steel" false "2025-06-16" "";
        Task.mk "1-3" "Plumbing" "Abraham Plumbing" false "2025-06-21" "" ];
    Job.mk "2" "Sage Thrasher" "X" "Scheduled" "" ""
      [ Task.mk "2-1" "Demo" "demo pre-existing pool" false "2025-06-20"
                "Check soil/ground conditions";
        Task.mk "2-2" "Steel" "Haime Steel" false "2025-07-01" "";
        Task.mk "2-3" "Plumbing" "Abraham Plumbing" false "2025-07-22" "" ] ].

(** ** Edit-task page *)

Module EditTask.
Definition Job : Type := Job.t Task.t.

Definition initialJobs : list Job := seedJobsWithTasks.

(** [task], [parentJob] and [loading]. *)
Record State : Type := mkState {
  task : option Task.t;
  parentJob : option Job;
  loading : bool
}.

Definition initial : State := mkState None None true.

(** The text controls of the form; the fifth control is the
    [completed] checkbox. *)
Inductive TextName : Type := in_title | in_description | in_dueDate | in_notes.

(** A change event: [type === 'checkbox'] holds for the [completed]
    control only, which carries [checked]; the others carry [value]. *)
Inductive Change : Type :=
| TextChange (name : TextName) (value : string)
| CheckboxChange (checked : bool).

(** [{ ...prevTask, [name]: type === 'checkbox' ? checked : value }]. *)
Definition assign (c : Change) (prevTask : Task.t) : Task.t :=
  match c with
  | TextChange in_title value =>
      Task.mk (Task.id prevTask) value (Task.description prevTask)
              (Task.completed prevTask) (Task.dueDate prevTask) (Task.notes prevTask)
  | TextChange in_description value =>
      Task.mk (Task.id prevTask) (Task.title prevTask) value
              (Task.completed prevTask) (Task.dueDate prevTask) (Task.notes prevTask)
  | TextChange in_dueDate value =>
      Task.mk (Task.id prevTask) (Task.title prevTask) (Task.description prevTask)
              (Task.completed prevTask) value (Task.notes prevTask)
  | TextChange in_notes value =>
      Task.mk (Task.id prevTask) (Task.title prevTask) (Task.description prevTask)
              (Task.completed prevTask) (Task.dueDate prevTask) value
  | CheckboxChange checked =>
      Task.mk (Task.id prevTask) (Task.title prevTask) (Task.description prevTask)
              checked (Task.dueDate prevTask) (Task.notes prevTask)
  end.

(** The body of the [useEffect]: the job first, then the task inside
    it. *)
Definition useEffect (store : list Job) (jobId taskId : string) (st : State)
  : State * list (Effect Task.t) :=
  if truthy jobId && truthy taskId then
    match find (fun j => Job.id j =? jobId) store with
    | Some foundJob =>
        match find (fun t => Task.id t =? taskId) (Job.tasks foundJob) with
        | Some foundTask => (mkState (Some foundTask) (Some foundJob) false, [])
        | None =>
            (mkState (task st) (Some foundJob) false,
             [ConsoleError "Task not found!"; RouterPush "/404"])
        end
    | None =>
        (mkState (task st) (parentJob st) false,
         [ConsoleError "Job not found!"; RouterPush "/404"])
    end
  else (mkState (task st) (parentJob st) false, []).

(** [handleChange]. *)
Definition handleChange (c : Change) (st : State) : State :=
  mkState
    (match task st with
     | None => None
     | Some prevTask => Some (assign c prevTask)
     end)
    (parentJob st) (loading st).

(** [handleSubmit]: logs the edited task, alerts, navigates back to
    the task list of the parent job.  Nothing is written to
    [initialJobs]. *)
Definition handleSubmit (st : State) : list (Effect Task.t) :=
  [ ConsoleLog "Saving changes for task:" (task st);
    Alert "Task updated! (Simulated save)";
    RouterPush (match parentJob st with
                | Some p => "/jobs/" ++ Job.id p ++ "/tasks"
                | None => "/jobs"
                end) ].

(** The render gate: [loading], then [!task || !parentJob]. *)
Definition render (st : State) : View Task.t :=
  if loading st then Loading "Loading task details..."
  else match task st, parentJob st with
       | Some t, Some _ => Page t
       | _, _ => NotFoundMsg "Task not found. Please check the URL."
       end.

Definition Patch : Type := list Change.

Definition applyPatch (patch : Patch) (st : State) : State :=
  fold_left (fun s c => handleChange c s) patch st.

(** [getTask]: entering the page for [(jobId, taskId)]. *)
Definition getTask (store : list Job) (jobId taskId : string) : View Task.t :=
  render (fst (useEffect store jobId taskId initial)).

Record Outcome : Type := mkOutcome {
  store_after : list Job;
  result : View Task.t;
  effects : list (Effect Task.t)
}.


(** [pathSegments[2]] and [pathSegments[4]]. *)
Definition jobIdOfPath (pathname : string) : string := segment 2 pathname.

Definition taskIdOfPath (pathname : string) : string := segment 4 pathname.

(** The component at a pathname. *)
Definition page (store : list Job) (pathname : string) : View Task.t :=
  getTask store (jobIdOfPath pathname) (taskIdOfPath pathname).

(** The shape of pathname the component assumes,
    ['/jobs/[jobId]/tasks/[taskId]/edit'], with given third and fifth
    parts. *)
Definition route (jobPart taskPart : string) : string :=
  "/jobs/" ++ jobPart ++ "/tasks/" ++ taskPart ++ "/edit".
End EditTask.

(** ** Task-list page *)

Module JobTasks.
Definition Job : Type := Job.t Task.t.

Definition initialJobs : list Job := seedJobsWithTasks.

Record State : Type := mkState {
  job : option Job;
  loading : bool
}.

Definition initial : State := mkState None true.

(** The body of the [useEffect].  There is no [else] branch: with a
    falsy [jobId] the state is left as it is. *)
Definition useEffect (store : list Job) (jobId : string) (st : State)
  : State * list (Effect Job) :=
  if truthy jobId then
    match find (fun j => Job.id j =? jobId) store with
    | Some foundJob => (mkState (Some foundJob) false, [])
    | None =>
        (mkState (job st) false,
         [ConsoleError "Job not found!"; RouterPush "/404"])
    end
  else (st, []).

(** [{ ...task, completed: !task.completed }]. *)
Definition flip (task : Task.t) : Task.t :=
  Task.mk (Task.id task) (Task.title task) (Task.description task)
          (negb (Task.completed task)) (Task.dueDate task) (Task.notes task).

(** [prevJob.tasks.map(task => task.id === taskId ? {...} : task)]. *)
Definition updatedTasks (taskId : string) (tasks : list Task.t) : list Task.t :=
  map (fun task => if Task.id task =? taskId then flip task else task) tasks.

(** [handleTaskCompletionChange]. *)
Definition handleTaskCompletionChange (taskId : string) (st : State) : State :=
  mkState
    (match job st with
     | None => None
     | Some prevJob =>
         Some (Job.mk (Job.id prevJob) (Job.jobName prevJob) (Job.clientName prevJob)
                      (Job.status prevJob) (Job.gateCode prevJob) (Job.notes prevJob)
                      (updatedTasks taskId (Job.tasks prevJob)))
     end)
    (loading st).

(** The render gate. *)
Definition render (st : State) : View Job :=
  if loading st then Loading "Loading tasks..."
  else match job st with
       | None => NotFoundMsg "Job not found."
       | Some j => Page j
       end.

(** Entering the page for [jobId]. *)
Definition mount (store : list Job) (jobId : string) : State :=
  fst (useEffect store jobId initial).

(** The task list a state renders, [job.tasks.map(...)]. *)
Definition shownTasks (st : State) : View (list Task.t) :=
  match render st with
  | Loading m => Loading m
  | NotFoundMsg m => NotFoundMsg m
  | Page j => Page (Job.tasks j)
  end.

(** [listTasks]: what the page lists on entry. *)
Definition listTasks (store : list Job) (jobId : string) : View (list Task.t) :=
  shownTasks (mount store jobId).

(** [toggleCompletion]: the checkbox handler on the page entered for
    [jobId]. *)
Definition toggleCompletion (store : list Job) (jobId taskId : string) : State :=
  handleTaskCompletionChange taskId (mount store jobId).

(** The task of a state that carries a given id, as a lookup by
    [find] sees it. *)
Definition taskOf (taskId : string) (st : State) : option Task.t :=
  match job st with
  | None => None
  | Some j => find (fun t => Task.id t =? taskId) (Job.tasks j)
  end.

(** A toggle with the seed array as it leaves it.  The handler builds
    a new array and new objects ([map] and spreads) and hands them to
    [setJob]; no statement of the module assigns to [initialJobs] or to
    one of its elements, so the seed array comes back as it was. *)
Record Outcome : Type := mkOutcome {
  store_after : list Job;
  page_after : State
}.

Definition toggle (store : list Job) (jobId taskId : string) : Outcome :=
  mkOutcome store (toggleCompletion store jobId taskId).
End JobTasks.

(** The store of the specification's toggle scenario: one job "Lot 3",
    "In Progress", with the tasks 1-1 "Excavation" (completed) and 1-2
    "Steel" (not completed).  The scenario leaves the other fields
    open; they are parameters. *)
Definition scenarioJob (clientName gateCode notes : string)
           (d1 due1 n1 d2 due2 n2 : string) : JobTasks.Job :=
  Job.mk "1" "Lot 3" clientName "In Progress" gateCode notes
    [ Task.mk "1-1" "Excavation" d1 true due1 n1;
      Task.mk "1-2" "Steel" d2 false due2 n2 ].

(** ** Notions used in the statements *)








(** The ids a seed array holds. *)
Definition jobIds {T : Type} (store : list (Job.t T)) : list string :=
  map (@Job.id T) store.

Definition taskIds (tasks : list Task.t) : list string := map Task.id tasks.

(** A patch of the edit-job form applied to a job, change by change. *)
Definition patchJob (patch : EditJob.Patch) (j : EditJob.Job) : EditJob.Job :=
  fold_left (fun j' nv => EditJob.assign (fst nv) (snd nv) j') patch j.

(** The value a patch leaves in a control: the one of the last change
    event for that control, if there is one. *)
Fixpoint lastValue (name : EditJob.InputName) (patch : EditJob.Patch) : option string :=
  match patch with
  | [] => None
  | (n, v) :: rest =>
      match lastValue name rest with
      | Some v' => Some v'
      | None => if EditJob.InputName_eqb n name then Some v else None
      end
  end.

(** A patch of the edit-task form applied to a task. *)
Definition patchTask (patch : EditTask.Patch) (t : Task.t) : Task.t :=
  fold_left (fun t' c => EditTask.assign c t') patch t.

(** Two tasks that agree on every field but [completed]. *)
Definition same_but_completed (t t' : Task.t) : Prop :=
  Task.id t' = Task.id t /\ Task.title t' = Task.title t
  /\ Task.description t' = Task.description t
  /\ Task.dueDate t' = Task.dueDate t /\ Task.notes t' = Task.notes t.

(** Two jobs that agree on every field but [tasks]. *)
Definition same_but_tasks {T : Type} (j j' : Job.t T) : Prop :=
  Job.id j' = Job.id j /\ Job.jobName j' = Job.jobName j
  /\ Job.clientName j' = Job.clientName j /\ Job.status j' = Job.status j
  /\ Job.gateCode j' = Job.gateCode j /\ Job.notes j' = Job.notes j.

(** A run of clicks on checkboxes of the task list. *)
Definition clicks (ids : list string) (st : JobTasks.State) : JobTasks.State :=
  fold_left (fun s t => JobTasks.handleTaskCompletionChange t s) ids st.

(** A task after a run of clicks: negated once per click on its id,
    so negated when the clicks on its id are odd in number. *)
Definition toggled (ids : list string) (t : Task.t) : Task.t :=
  if Nat.odd (count_occ string_dec ids (Task.id t)) then JobTasks.flip t else t.

Definition toggledJob (ids : list string) (j : JobTasks.Job) : JobTasks.Job :=
  Job.mk (Job.id j) (Job.jobName j) (Job.clientName j) (Job.status j)
         (Job.gateCode j) (Job.notes j) (map (toggled ids) (Job.tasks j)).

(** The first segment of a string cut at the slashes. *)
Definition firstSegment (s : string) : string := hd "" (split "/"%char s).

(** * Properties *)

(** ** Lookup by id *)

Section Find.
Context {A : Type} (key : A -> string).

Lemma find_key_some (x : string) (l : list A) (a : A) :
  find (fun e => key e =? x) l = Some a -> In a l /\ key a = x.
Proof.
  intros H. apply find_some in H. destruct H as [Hin Heq].
  split; [assumption | now apply String.eqb_eq].
Qed.

Lemma find_key_none (x : string) (l : list A) :
  find (fun e => key e =? x) l = None <-> ~ In x (map key l).
Proof.
  induction l as [|a l IH]; simpl.
  - split; [intros _ [] | reflexivity].
  - destruct (String.eqb_spec (key a) x) as [E|E].
    + split; [discriminate | intros H; exfalso; apply H; now left].
    + rewrite IH. split.
      * intros H [H'|H']; [contradiction | now apply H].
      * intros H H'. apply H. now right.
Qed.

Lemma find_key_in (x : string) (l : list A) :
  In x (map key l) -> exists a, find (fun e => key e =? x) l = Some a.
Proof.
  intros Hin. destruct (find (fun e => key e =? x) l) as [a|] eqn:E.
  - now exists a.
  - apply find_key_none in E. contradiction.
Qed.
End Find.

Lemma truthy_iff (s : string) : truthy s = true <-> s <> "".
Proof.
  unfold truthy. destruct (String.eqb_spec s ""); simpl; split; congruence.
Qed.

(** Every id of the seed arrays is a non-empty string. *)
Lemma allJobs_ids_truthy (id : string) :
  In id (jobIds EditJob.allJobs) -> truthy id = true.
Proof.
  simpl. intros [H|[H|[H|[]]]]; subst; reflexivity.
Qed.

Lemma seedJobs_ids_truthy (id : string) :
  In id (jobIds seedJobsWithTasks) -> truthy id = true.
Proof.
  simpl. intros [H|[H|[]]]; subst; reflexivity.
Qed.

Lemma seedTasks_ids_truthy (j : Job.t Task.t) (id : string) :
  In j seedJobsWithTasks -> In id (taskIds (Job.tasks j)) -> truthy id = true.
Proof.
  simpl. intros [H|[H|[]]]; subst; simpl;
    intros [H|[H|[H|[]]]]; subst; reflexivity.
Qed.

(** ** The edit-job page *)

Lemma EditJob_useEffect_found (store : list EditJob.Job) (id : string) (j : EditJob.Job) :
  truthy id = true ->
  find (fun e => Job.id e =? id) store = Some j ->
  EditJob.useEffect store id EditJob.initial = (EditJob.mkState (Some j) false, []).
Proof.
  intros Ht Hf. unfold EditJob.useEffect. now rewrite Ht, Hf.
Qed.

Lemma EditJob_useEffect_absent (store : list EditJob.Job) (id : string) :
  find (fun e => Job.id e =? id) store = None ->
  EditJob.render (fst (EditJob.useEffect store id EditJob.initial))
  = NotFoundMsg "Job not found. Please check the URL.".
Proof.
  intros Hf. unfold EditJob.useEffect. rewrite Hf.
  destruct (truthy id); reflexivity.
Qed.

(** C6. Every job id held by a page's seed array is found by that
    page's lookup, and the job the page then shows carries the queried
    id: on the edit-job page ([allJobs]) and on the task-list page
    ([initialJobs]). *)
Theorem getJob_returns_queried_id (id : string) :
  (In id (jobIds EditJob.allJobs) ->
   exists j, EditJob.getJob EditJob.allJobs id = Page j /\ Job.id j = id)
  /\ (In id (jobIds JobTasks.initialJobs) ->
      exists j, JobTasks.render (JobTasks.mount JobTasks.initialJobs id) = Page j
                /\ Job.id j = id).
Proof.
  split; intros Hin.
  - pose proof (allJobs_ids_truthy _ Hin) as Ht.
    destruct (find_key_in (@Job.id string) _ _ Hin) as [j Hj].
    exists j. split.
    + unfold EditJob.getJob. now rewrite (EditJob_useEffect_found _ _ _ Ht Hj).
    + now apply (find_key_some (@Job.id string)) in Hj.
  - pose proof (seedJobs_ids_truthy _ Hin) as Ht.
    destruct (find_key_in (@Job.id Task.t) _ _ Hin) as [j Hj].
    exists j. split.
    + unfold JobTasks.mount, JobTasks.useEffect. now rewrite Ht, Hj.
    + now apply (find_key_some (@Job.id Task.t)) in Hj.
Qed.

Lemma getJob_returns_queried_id_witness :
  (exists j, EditJob.getJob EditJob.allJobs "3" = Page j /\ Job.id j = "3")
  /\ (exists j, JobTasks.render (JobTasks.mount JobTasks.initialJobs "2") = Page j
                /\ Job.id j = "2").
Proof.
  split.
  - apply (proj1 (getJob_returns_queried_id "3")). simpl. tauto.
  - apply (proj2 (getJob_returns_queried_id "2")). simpl. tauto.
Defined.

(** C7. For an id that no job of the store carries, entering the
    edit-job page shows the not-found message, and so does every
    update, whatever its patch: the form is never rendered, the submit
    handler never runs and the store is left as it was.  When the id
    is not empty the page also redirects to /404. *)
Theorem absent_id_signals_NotFound
        (store : list EditJob.Job) (id : string) (patch : EditJob.Patch) :
  ~ In id (jobIds store) ->
  signal (EditJob.getJob store id) = Some NotFound
  /\ signal (EditJob.result (EditJob.updateJob store id patch)) = Some NotFound
  /\ EditJob.store_after (EditJob.updateJob store id patch) = store
  /\ ~ In (Alert "Job updated! (Simulated save)")
          (EditJob.effects (EditJob.updateJob store id patch))
  /\ (id <> "" ->
      In (RouterPush "/404") (EditJob.effects (EditJob.updateJob store id patch))).
Proof.
  intros Habs. apply (find_key_none (@Job.id string)) in Habs.
  pose proof (EditJob_useEffect_absent store id Habs) as Hr.
  unfold EditJob.getJob, EditJob.updateJob.
  destruct (EditJob.useEffect store id EditJob.initial) as [st fx] eqn:E.
  simpl in Hr. simpl. rewrite !Hr. simpl.
  do 3 (split; [reflexivity|]).
  unfold EditJob.useEffect in E. rewrite Habs in E.
  destruct (truthy id) eqn:Ht; inversion E; subst; simpl.
  - split; [intuition discriminate | intros _; right; now left].
  - split; [tauto | intros Hne; apply truthy_iff in Hne; congruence].
Qed.

Lemma absent_id_signals_NotFound_witness :
  signal (EditJob.getJob EditJob.allJobs "4") = Some NotFound
  /\ signal (EditJob.result
               (EditJob.updateJob EditJob.allJobs "4" [(EditJob.in_status, "Completed")]))
     = Some NotFound
  /\ EditJob.store_after
       (EditJob.updateJob EditJob.allJobs "4" [(EditJob.in_status, "Completed")])
     = EditJob.allJobs
  /\ ~ In (Alert "Job updated! (Simulated save)")
          (EditJob.effects
             (EditJob.updateJob EditJob.allJobs "4" [(EditJob.in_status, "Completed")]))
  /\ ("4" <> "" ->
      In (RouterPush "/404")
         (EditJob.effects
            (EditJob.updateJob EditJob.allJobs "4" [(EditJob.in_status, "Completed")]))).
Proof.
  apply (absent_id_signals_NotFound EditJob.allJobs "4").
  simpl. intros [H|[H|[H|[]]]]; discriminate.
Defined.

(** *** Change events and patches *)

Lemma InputName_eqb_eq (a b : EditJob.InputName) :
  EditJob.InputName_eqb a b = true <-> a = b.
Proof. destruct a, b; simpl; split; congruence. Qed.

Lemma field_assign (name n : EditJob.InputName) (v : string) (j : EditJob.Job) :
  EditJob.field name (EditJob.assign n v j)
  = if EditJob.InputName_eqb n name then v else EditJob.field name j.
Proof. destruct name, n; reflexivity. Qed.

Lemma assign_keeps_id_tasks (n : EditJob.InputName) (v : string) (j : EditJob.Job) :
  Job.id (EditJob.assign n v j) = Job.id j
  /\ Job.tasks (EditJob.assign n v j) = Job.tasks j.
Proof. destruct n; split; reflexivity. Qed.

Lemma field_patchJob (name : EditJob.InputName) (patch : EditJob.Patch) :
  forall j, EditJob.field name (patchJob patch j)
            = match lastValue name patch with
              | Some v => v
              | None => EditJob.field name j
              end.
Proof.
  induction patch as [|[n v] rest IH]; intros j; simpl.
  - reflexivity.
  - unfold patchJob in *. simpl. rewrite IH.
    destruct (lastValue name rest); [reflexivity|].
    rewrite field_assign. now destruct (EditJob.InputName_eqb n name).
Qed.

Lemma patchJob_keeps_id_tasks (patch : EditJob.Patch) :
  forall j, Job.id (patchJob patch j) = Job.id j
            /\ Job.tasks (patchJob patch j) = Job.tasks j.
Proof.
  induction patch as [|[n v] rest IH]; intros j; unfold patchJob in *; simpl.
  - now split.
  - destruct (IH (EditJob.assign n v j)) as [H1 H2].
    destruct (assign_keeps_id_tasks n v j) as [H3 H4].
    split; congruence.
Qed.

Lemma EditJob_applyPatch_some (patch : EditJob.Patch) :
  forall j l, EditJob.applyPatch patch (EditJob.mkState (Some j) l)
              = EditJob.mkState (Some (patchJob patch j)) l.
Proof.
  induction patch as [|[n v] rest IH]; intros j l; unfold EditJob.applyPatch, patchJob in *.
  - reflexivity.
  - simpl. unfold EditJob.handleChange at 2. simpl. apply IH.
Qed.

(** An update of a job the page finds: the whole patch lands in the
    form state, the submit handler runs on it, the seed array is handed
    back. *)
Lemma updateJob_found (store : list EditJob.Job) (id : string) (j : EditJob.Job)
      (patch : EditJob.Patch) :
  truthy id = true ->
  find (fun e => Job.id e =? id) store = Some j ->
  EditJob.updateJob store id patch
  = EditJob.mkOutcome store (Page (patchJob patch j))
      (EditJob.handleSubmit (EditJob.mkState (Some (patchJob patch j)) false)).
Proof.
  intros Ht Hf. unfold EditJob.updateJob.
  rewrite (EditJob_useEffect_found _ _ _ Ht Hf). simpl.
  now rewrite EditJob_applyPatch_some.
Qed.

Lemma allJobs_found_truthy (id : string) (j : EditJob.Job) :
  find (fun e => Job.id e =? id) EditJob.allJobs = Some j -> truthy id = true.
Proof.
  intros Hf. apply allJobs_ids_truthy.
  apply (find_key_some (@Job.id string)) in Hf. destruct Hf as [Hin <-].
  unfold jobIds. now apply in_map.
Qed.

Lemma getJob_found (store : list EditJob.Job) (id : string) (j : EditJob.Job) :
  truthy id = true ->
  find (fun e => Job.id e =? id) store = Some j ->
  EditJob.getJob store id = Page j.
Proof.
  intros Ht Hf. unfold EditJob.getJob.
  now rewrite (EditJob_useEffect_found _ _ _ Ht Hf).
Qed.

(** C1, as the code has it. For every job id of the edit page's seed
    array, an update succeeds, and the job it hands to the (simulated)
    save carries, control by control, the last value the patch gave it,
    the other fields, the id and the tasks being those of the seed job.
    The save is simulated: the seed array is unchanged, a later lookup
    of the id shows the seed job again, and the jobs list shows the
    unpatched seed. *)
Theorem updateJob_saved_not_stored
        (id : string) (j0 : EditJob.Job) (patch : EditJob.Patch) :
  find (fun e => Job.id e =? id) EditJob.allJobs = Some j0 ->
  let o := EditJob.updateJob EditJob.allJobs id patch in
  EditJob.result o = Page (patchJob patch j0)
  /\ (forall name v, lastValue name patch = Some v ->
                     EditJob.field name (patchJob patch j0) = v)
  /\ (forall name, lastValue name patch = None ->
                   EditJob.field name (patchJob patch j0) = EditJob.field name j0)
  /\ Job.id (patchJob patch j0) = id
  /\ Job.tasks (patchJob patch j0) = Job.tasks j0
  /\ In (ConsoleLog "Saving changes for job:" (Some (patchJob patch j0)))
        (EditJob.effects o)
  /\ EditJob.store_after o = EditJob.allJobs
  /\ EditJob.getJob (EditJob.store_after o) id = Page j0
  /\ Jobs.listJobs = EditJob.store_after o.
Proof.
  intros Hf o. pose proof (allJobs_found_truthy _ _ Hf) as Ht.
  subst o. rewrite (updateJob_found _ _ _ patch Ht Hf). simpl.
  destruct (patchJob_keeps_id_tasks patch j0) as [Hid Htasks].
  apply (find_key_some (@Job.id string)) in Hf as Hk. destruct Hk as [_ Hk].
  split; [reflexivity|].
  split; [intros name v Hl; now rewrite field_patchJob, Hl|].
  split; [intros name Hl; now rewrite field_patchJob, Hl|].
  split; [congruence|].
  split; [assumption|].
  split; [now left|].
  split; [reflexivity|].
  split; [now apply getJob_found | reflexivity].
Qed.

Lemma updateJob_saved_not_stored_witness :
  let j0 := Job.mk "3" "Emergency Repair - Wilson Pool" "Mike Wilson" "Overdue" "" ""
                   ["Replace pump"; "Check electrical connections"; "Test system"] in
  let patch := [(EditJob.in_status, "Completed")] in
  let o := EditJob.updateJob EditJob.allJobs "3" patch in
  EditJob.result o = Page (patchJob patch j0)
  /\ (forall name v, lastValue name patch = Some v ->
                     EditJob.field name (patchJob patch j0) = v)
  /\ (forall name, lastValue name patch = None ->
                   EditJob.field name (patchJob patch j0) = EditJob.field name j0)
  /\ Job.id (patchJob patch j0) = "3"
  /\ Job.tasks (patchJob patch j0) = Job.tasks j0
  /\ In (ConsoleLog "Saving changes for job:" (Some (patchJob patch j0)))
        (EditJob.effects o)
  /\ EditJob.store_after o = EditJob.allJobs
  /\ EditJob.getJob (EditJob.store_after o) "3" = Page j0
  /\ Jobs.listJobs = EditJob.store_after o.
Proof.
  intros j0 patch. apply (updateJob_saved_not_stored "3" j0 patch). reflexivity.
Defined.

(** C1 as the specification states it fails: after
    [updateJob("3", {status: "Completed"})] the lookup of job "3" does
    not show the status "Completed" (it shows "Overdue", the seed
    value). *)
Lemma updateJob_status_not_reflected :
  ~ (exists j,
        EditJob.getJob
          (EditJob.store_after
             (EditJob.updateJob EditJob.allJobs "3" [(EditJob.in_status, "Completed")]))
          "3" = Page j
        /\ Job.status j = "Completed").
Proof.
  intros [j [Hget Hst]]. vm_compute in Hget.
  inversion Hget; subst j. discriminate Hst.
Qed.

(** C2, as the code has it. No page validates: for every job id of
    the seed array and every patch whose result breaks a constraint of
    the specification (empty [jobName] or [clientName], [status]
    outside the enumeration), the update is accepted; the offending
    values are in the job handed to the simulated save, the page
    announces "Job updated!", no error is signalled, and the stored job
    is the seed job, its [jobName] included. *)
Theorem updateJob_accepts_invalid_patch
        (id : string) (j0 : EditJob.Job) (patch : EditJob.Patch) :
  find (fun e => Job.id e =? id) EditJob.allJobs = Some j0 ->
  spec_job_violation (patchJob patch j0) = true ->
  let o := EditJob.updateJob EditJob.allJobs id patch in
  EditJob.result o = Page (patchJob patch j0)
  /\ signal (EditJob.result o) = None
  /\ In (Alert "Job updated! (Simulated save)") (EditJob.effects o)
  /\ exists j, EditJob.getJob (EditJob.store_after o) id = Page j
               /\ Job.jobName j = Job.jobName j0.
Proof.
  intros Hf _ o. pose proof (allJobs_found_truthy _ _ Hf) as Ht.
  subst o. rewrite (updateJob_found _ _ _ patch Ht Hf). simpl.
  split; [reflexivity|]. split; [reflexivity|].
  split; [right; now left|].
  exists j0. split; [now apply getJob_found | reflexivity].
Qed.

Lemma updateJob_accepts_invalid_patch_witness :
  let j0 := Job.mk "1" "Lot 3" "Cindy McKinny" "In Progress" "4729" ""
                   ["Excavation"; "Steel"; "Plumbing"] in
  let patch := [(EditJob.in_jobName, "")] in
  let o := EditJob.updateJob EditJob.allJobs "1" patch in
  EditJob.result o = Page (patchJob patch j0)
  /\ signal (EditJob.result o) = None
  /\ In (Alert "Job updated! (Simulated save)") (EditJob.effects o)
  /\ exists j, EditJob.getJob (EditJob.store_after o) "1" = Page j
               /\ Job.jobName j = Job.jobName j0.
Proof.
  intros j0 patch.
  apply (updateJob_accepts_invalid_patch "1" j0 patch); reflexivity.
Defined.

(** C2 as the specification states it fails:
    [updateJob("1", {jobName: ""})] signals no [ValidationError]; it
    succeeds with the empty name in the job it saves. *)
Lemma updateJob_empty_jobName_not_rejected :
  signal (EditJob.result
            (EditJob.updateJob EditJob.allJobs "1" [(EditJob.in_jobName, "")]))
  <> Some ValidationError
  /\ exists j,
      EditJob.result (EditJob.updateJob EditJob.allJobs "1" [(EditJob.in_jobName, "")])
      = Page j
      /\ Job.jobName j = ""
      /\ In (Alert "Job updated! (Simulated save)")
            (EditJob.effects
               (EditJob.updateJob EditJob.allJobs "1" [(EditJob.in_jobName, "")])).
Proof.
  split; [vm_compute; discriminate|].
  eexists. split; [vm_compute; reflexivity|].
  split; [reflexivity | vm_compute; tauto].
Qed.

(** ** The edit-task page *)

Lemma EditTask_useEffect_found
      (store : list EditTask.Job) (jobId taskId : string) (j : EditTask.Job) (t : Task.t) :
  truthy jobId = true -> truthy taskId = true ->
  find (fun e => Job.id e =? jobId) store = Some j ->
  find (fun e => Task.id e =? taskId) (Job.tasks j) = Some t ->
  EditTask.useEffect store jobId taskId EditTask.initial
  = (EditTask.mkState (Some t) (Some j) false, []).
Proof.
  intros Hj Ht Hfj Hft. unfold EditTask.useEffect.
  now rewrite Hj, Ht, Hfj, Hft.
Qed.

Lemma EditTask_applyPatch_some (patch : EditTask.Patch) :
  forall t p l, EditTask.applyPatch patch (EditTask.mkState (Some t) p l)
                = EditTask.mkState (Some (patchTask patch t)) p l.
Proof.
  induction patch as [|c rest IH]; intros t p l;
    unfold EditTask.applyPatch, patchTask in *.
  - reflexivity.
  - simpl. unfold EditTask.handleChange at 2. simpl. apply IH.
Qed.


Lemma getTask_found
      (store : list EditTask.Job) (jobId taskId : string) (j : EditTask.Job) (t : Task.t) :
  truthy jobId = true -> truthy taskId = true ->
  find (fun e => Job.id e =? jobId) store = Some j ->
  find (fun e => Task.id e =? taskId) (Job.tasks j) = Some t ->
  EditTask.getTask store jobId taskId = Page t.
Proof.
  intros Hj Ht Hfj Hft. unfold EditTask.getTask.
  now rewrite (EditTask_useEffect_found _ _ _ _ _ Hj Ht Hfj Hft).
Qed.

Lemma seed_found_truthy (jobId taskId : string) (j : Job.t Task.t) (t : Task.t) :
  find (fun e => Job.id e =? jobId) seedJobsWithTasks = Some j ->
  find (fun e => Task.id e =? taskId) (Job.tasks j) = Some t ->
  truthy jobId = true /\ truthy taskId = true.
Proof.
  intros Hfj Hft.
  apply (find_key_some (@Job.id Task.t)) in Hfj. destruct Hfj as [Hin <-].
  apply (find_key_some Task.id) in Hft. destruct Hft as [Hint <-].
  split.
  - apply seedJobs_ids_truthy. unfold jobIds. now apply in_map.
  - apply (seedTasks_ids_truthy j); [assumption|]. unfold taskIds. now apply in_map.
Qed.



(** ** The task-list page *)

Lemma flip_involutive (t : Task.t) : JobTasks.flip (JobTasks.flip t) = t.
Proof. destruct t; unfold JobTasks.flip; simpl. now rewrite negb_involutive. Qed.

Lemma flip_same_but_completed (t : Task.t) :
  same_but_completed t (JobTasks.flip t)
  /\ Task.completed (JobTasks.flip t) = negb (Task.completed t).
Proof. unfold same_but_completed. simpl. tauto. Qed.

Lemma updatedTasks_involutive (taskId : string) (l : list Task.t) :
  JobTasks.updatedTasks taskId (JobTasks.updatedTasks taskId l) = l.
Proof.
  unfold JobTasks.updatedTasks. rewrite map_map.
  rewrite <- (map_id l) at 2. apply map_ext. intros t.
  destruct (Task.id t =? taskId) eqn:E; simpl.
  - rewrite E. apply flip_involutive.
  - now rewrite E.
Qed.

Lemma find_updatedTasks (taskId : string) (l : list Task.t) :
  find (fun t => Task.id t =? taskId) (JobTasks.updatedTasks taskId l)
  = option_map JobTasks.flip (find (fun t => Task.id t =? taskId) l).
Proof.
  induction l as [|t l IH]; simpl; [reflexivity|].
  destruct (Task.id t =? taskId) eqn:E; simpl.
  - now rewrite E.
  - now rewrite E.
Qed.

Lemma handleTaskCompletionChange_involutive (taskId : string) (st : JobTasks.State) :
  JobTasks.handleTaskCompletionChange taskId
    (JobTasks.handleTaskCompletionChange taskId st) = st.
Proof.
  destruct st as [[j|] l]; unfold JobTasks.handleTaskCompletionChange; simpl.
  - rewrite updatedTasks_involutive. now destruct j.
  - reflexivity.
Qed.

Lemma taskOf_toggle (taskId : string) (st : JobTasks.State) :
  JobTasks.taskOf taskId (JobTasks.handleTaskCompletionChange taskId st)
  = option_map JobTasks.flip (JobTasks.taskOf taskId st).
Proof.
  destruct st as [[j|] l]; unfold JobTasks.taskOf; simpl;
    [apply find_updatedTasks | reflexivity].
Qed.

Lemma render_Page_inv (st : JobTasks.State) (j : JobTasks.Job) :
  JobTasks.render st = Page j -> st = JobTasks.mkState (Some j) false.
Proof.
  destruct st as [[j'|] [|]]; unfold JobTasks.render; simpl;
    intros H; inversion H; reflexivity.
Qed.


(** C4. Toggling the same task twice in succession is the identity on
    the page's state, after any earlier clicks and for every store, job
    id and task id: the task list shown is the one shown before, and
    the task's [completed] is back at its value, having been its
    negation in between. *)
Theorem toggleCompletion_twice_identity
        (store : list JobTasks.Job) (jobId : string) (earlier : list string)
        (taskId : string) :
  let before := clicks earlier (JobTasks.mount store jobId) in
  let once := JobTasks.handleTaskCompletionChange taskId before in
  let twice := JobTasks.handleTaskCompletionChange taskId once in
  twice = before
  /\ JobTasks.shownTasks twice = JobTasks.shownTasks before
  /\ option_map Task.completed (JobTasks.taskOf taskId once)
     = option_map negb (option_map Task.completed (JobTasks.taskOf taskId before))
  /\ option_map Task.completed (JobTasks.taskOf taskId twice)
     = option_map Task.completed (JobTasks.taskOf taskId before).
Proof.
  intros before once twice.
  assert (Hid : twice = before)
    by (subst twice once; apply handleTaskCompletionChange_involutive).
  split; [assumption|]. split; [now rewrite Hid|].
  split; [|now rewrite Hid].
  subst once. rewrite taskOf_toggle.
  now destruct (JobTasks.taskOf taskId before).
Qed.

(** C9, as the code has it. A toggle changes only [completed] of the
    tasks whose id is the toggled one: for every job the page shows,
    the job after the toggle has the same fields but [tasks], as many
    tasks, and at every position either the task as it was (another
    id) or the task with [completed] negated and every other field kept
    (the toggled id).
    This is a change of the state of the mounted page.  On the
    specification's scenario (tasks 1-1 completed, 1-2 not), the list
    the page shows after toggling 1-2 holds both tasks, in order, both
    completed; the seed array is not written, for any store and ids,
    so [listTasks] after the toggle lists what it listed before: on
    the scenario, 1-1 completed and 1-2 not. *)
Theorem toggleCompletion_frame :
  (forall (store : list JobTasks.Job) (jobId taskId : string) (j : JobTasks.Job),
      JobTasks.render (JobTasks.mount store jobId) = Page j ->
      exists j',
        JobTasks.render (JobTasks.toggleCompletion store jobId taskId) = Page j'
        /\ same_but_tasks j j'
        /\ length (Job.tasks j') = length (Job.tasks j)
        /\ taskIds (Job.tasks j') = taskIds (Job.tasks j)
        /\ forall i t,
            nth_error (Job.tasks j) i = Some t ->
            exists t',
              nth_error (Job.tasks j') i = Some t'
              /\ if Task.id t =? taskId
                 then same_but_completed t t'
                      /\ Task.completed t' = negb (Task.completed t)
                 else t' = t)
  /\ (forall clientName gateCode notes d1 due1 n1 d2 due2 n2 : string,
         let g := JobTasks.toggle
                    [scenarioJob clientName gateCode notes d1 due1 n1 d2 due2 n2]
                    "1" "1-2" in
         JobTasks.shownTasks (JobTasks.page_after g)
         = Page [ Task.mk "1-1" "Excavation" d1 true due1 n1;
                  Task.mk "1-2" "Steel" d2 true due2 n2 ]
         /\ JobTasks.listTasks (JobTasks.store_after g) "1"
            = Page [ Task.mk "1-1" "Excavation" d1 true due1 n1;
                     Task.mk "1-2" "Steel" d2 false due2 n2 ])
  /\ (forall (store : list JobTasks.Job) (jobId taskId : string),
         JobTasks.store_after (JobTasks.toggle store jobId taskId) = store
         /\ JobTasks.listTasks
              (JobTasks.store_after (JobTasks.toggle store jobId taskId)) jobId
            = JobTasks.listTasks store jobId).
Proof.
  split; [|split; [intros; split; reflexivity | intros; split; reflexivity]].
  intros store jobId taskId j Hr. apply render_Page_inv in Hr.
  unfold JobTasks.toggleCompletion. rewrite Hr.
  eexists. split; [reflexivity|]. simpl.
  split; [unfold same_but_tasks; simpl; tauto|].
  split; [unfold JobTasks.updatedTasks; apply length_map|].
  split.
  - unfold taskIds, JobTasks.updatedTasks. rewrite map_map.
    apply map_ext. intros t. now destruct (Task.id t =? taskId).
  - intros i t Hi. unfold JobTasks.updatedTasks.
    rewrite nth_error_map, Hi. simpl.
    destruct (Task.id t =? taskId).
    + exists (JobTasks.flip t). split; [reflexivity | apply flip_same_but_completed].
    + now exists t.
Qed.

Lemma toggleCompletion_frame_witness :
  exists j',
    JobTasks.render (JobTasks.toggleCompletion JobTasks.initialJobs "1" "1-2") = Page j'
    /\ same_but_tasks (hd (Job.mk "" "" "" "" "" "" []) JobTasks.initialJobs) j'
    /\ map Task.completed (Job.tasks j') = [true; true; false].
Proof.
  destruct (proj1 toggleCompletion_frame JobTasks.initialJobs "1" "1-2"
              (hd (Job.mk "" "" "" "" "" "" []) JobTasks.initialJobs) eq_refl)
    as [j' [Hr [Hs _]]].
  exists j'. split; [assumption|]. split; [assumption|].
  vm_compute in Hr. inversion Hr. reflexivity.
Defined.

(** C9 as the specification states it fails: on the scenario store,
    after [toggleCompletion("1", "1-2")], [listTasks("1")] does not
    return both tasks completed (task 1-2 is listed as the seed has
    it). *)
Lemma toggle_not_in_later_listTasks :
  ~ (exists l,
        JobTasks.listTasks
          (JobTasks.store_after
             (JobTasks.toggle
                [scenarioJob "Cindy McKinny" "4729" ""
                   "Test pH, chlorine, and alkalinity levels" "2025-06-04" ""
                   "Jaime Steel" "2025-06-16" ""]
                "1" "1-2"))
          "1" = Page l
        /\ map Task.completed l = [true; true]).
Proof.
  intros [l [Hl Hc]]. vm_compute in Hl. inversion Hl; subst l. discriminate Hc.
Qed.

(** ** Task lookup, and the toggle against the checkbox of the edit form *)

Lemma getTask_job_absent (store : list EditTask.Job) (jobId taskId : string) :
  find (fun e => Job.id e =? jobId) store = None ->
  EditTask.useEffect store jobId taskId EditTask.initial
  = (EditTask.mkState None None false,
     if truthy jobId && truthy taskId
     then [ConsoleError "Job not found!"; RouterPush "/404"] else []).
Proof.
  intros Hf. unfold EditTask.useEffect. rewrite Hf.
  now destruct (truthy jobId && truthy taskId).
Qed.

Lemma getTask_task_absent
      (store : list EditTask.Job) (jobId taskId : string) (j : EditTask.Job) :
  find (fun e => Job.id e =? jobId) store = Some j ->
  find (fun e => Task.id e =? taskId) (Job.tasks j) = None ->
  EditTask.task (fst (EditTask.useEffect store jobId taskId EditTask.initial)) = None
  /\ EditTask.loading (fst (EditTask.useEffect store jobId taskId EditTask.initial)) = false.
Proof.
  intros Hfj Hft. unfold EditTask.useEffect. rewrite Hfj, Hft.
  now destruct (truthy jobId && truthy taskId).
Qed.

Lemma EditTask_render_no_task (st : EditTask.State) :
  EditTask.task st = None -> EditTask.loading st = false ->
  EditTask.render st = NotFoundMsg "Task not found. Please check the URL.".
Proof.
  destruct st as [t p l]. simpl. intros -> ->. reflexivity.
Qed.

(** C8. On the seed data of the edit-task page, the lookup of
    [(jobId, taskId)] shows the not-found message exactly when no job
    carries [jobId], or the job found for [jobId] has no task carrying
    [taskId]; task "9-9" of job "1" is such a case. *)
Theorem getTask_NotFound_iff (jobId taskId : string) :
  (signal (EditTask.getTask EditTask.initialJobs jobId taskId) = Some NotFound
   <-> (~ In jobId (jobIds EditTask.initialJobs)
        \/ exists j, find (fun e => Job.id e =? jobId) EditTask.initialJobs = Some j
                     /\ ~ In taskId (taskIds (Job.tasks j))))
  /\ In "1" (jobIds EditTask.initialJobs)
  /\ signal (EditTask.getTask EditTask.initialJobs "1" "9-9") = Some NotFound.
Proof.
  split; [|split; [now left | reflexivity]].
  unfold EditTask.getTask.
  destruct (find (fun e => Job.id e =? jobId) EditTask.initialJobs) as [j|] eqn:Hfj.
  - destruct (find (fun e => Task.id e =? taskId) (Job.tasks j)) as [t|] eqn:Hft.
    + destruct (seed_found_truthy _ _ _ _ Hfj Hft) as [Hj Ht].
      rewrite (EditTask_useEffect_found _ _ _ _ _ Hj Ht Hfj Hft).
      cbn [fst EditTask.render EditTask.task EditTask.parentJob EditTask.loading signal].
      split; [discriminate|]. intros [Habs | [j' [Hj' Habs]]].
      * apply (find_key_none (@Job.id Task.t)) in Habs.
        congruence.
      * inversion Hj'; subst j'. apply (find_key_none Task.id) in Habs. congruence.
    + destruct (getTask_task_absent _ _ _ _ Hfj Hft) as [H1 H2].
      rewrite (EditTask_render_no_task _ H1 H2). cbn [signal].
      split; [|reflexivity]. intros _. right. exists j.
      split; [reflexivity | now apply (find_key_none Task.id)].
  - rewrite (getTask_job_absent _ _ _ Hfj).
    cbn [fst EditTask.render EditTask.task EditTask.parentJob EditTask.loading signal].
    split; [|reflexivity]. intros _. left.
    now apply (find_key_none (@Job.id Task.t)).
Qed.



(** ** The seed arrays of the pages against each other *)

(** C10. Job "3" is in the seed data of the jobs list and of the
    edit-job page, whose lookup shows it, and in the seed data of
    neither task page: the task list and the lookup of any of its
    tasks show the not-found message. *)
Theorem job3_known_to_job_pages_only :
  In "3" (jobIds Jobs.listJobs)
  /\ (exists j, EditJob.getJob EditJob.allJobs "3" = Page j /\ Job.id j = "3")
  /\ ~ In "3" (jobIds JobTasks.initialJobs)
  /\ ~ In "3" (jobIds EditTask.initialJobs)
  /\ signal (JobTasks.listTasks JobTasks.initialJobs "3") = Some NotFound
  /\ forall t, signal (EditTask.getTask EditTask.initialJobs "3" t) = Some NotFound.
Proof.
  split; [simpl; tauto|].
  split; [eexists; split; [vm_compute; reflexivity | reflexivity]|].
  split; [simpl; intros [H|[H|[]]]; discriminate|].
  split; [simpl; intros [H|[H|[]]]; discriminate|].
  split; [reflexivity|].
  intros t. unfold EditTask.getTask, EditTask.useEffect. simpl.
  destruct (truthy t); reflexivity.
Qed.

(** * Further properties of the pages *)

(** ** Splitting a path *)

Lemma split_nonempty (sep : ascii) (s : string) : split sep s <> [].
Proof.
  destruct s as [|c rest]; simpl; [discriminate|].
  destruct (Ascii.eqb c sep); [discriminate|].
  destruct (split sep rest); discriminate.
Qed.

Lemma split_app_sep (sep : ascii) (a b : string) :
  split sep (a ++ String sep b) = split sep a ++ split sep b.
Proof.
  induction a as [|c a IH]; simpl.
  - now rewrite Ascii.eqb_refl.
  - destruct (Ascii.eqb c sep); [now rewrite IH|].
    rewrite IH. pose proof (split_nonempty sep a) as Hne.
    destruct (split sep a) as [|seg segs]; [contradiction | reflexivity].
Qed.

Lemma split_no_sep (sep : ascii) (s : string) :
  contains sep s = false -> split sep s = [s].
Proof.
  induction s as [|c s IH]; simpl; [reflexivity|].
  intros H. apply orb_false_iff in H. destruct H as [Hc Hs].
  rewrite Hc, (IH Hs). reflexivity.
Qed.

Lemma split_segments_no_sep (sep : ascii) (s seg : string) :
  In seg (split sep s) -> contains sep seg = false.
Proof.
  revert seg. induction s as [|c s IH]; simpl; intros seg Hin.
  - destruct Hin as [<-|[]]. reflexivity.
  - destruct (Ascii.eqb c sep) eqn:E.
    + destruct Hin as [<-|Hin]; [reflexivity | now apply IH].
    + destruct (split sep s) as [|seg0 segs].
      * destruct Hin as [<-|[]]. simpl. now rewrite E.
      * destruct Hin as [<-|Hin].
        -- simpl. rewrite E. apply IH. now left.
        -- apply IH. now right.
Qed.

Lemma firstSegment_fixed_iff (s : string) :
  firstSegment s = s <-> contains "/"%char s = false.
Proof.
  unfold firstSegment. split.
  - intros H. apply (split_segments_no_sep "/"%char s).
    pose proof (split_nonempty "/"%char s) as Hne.
    destruct (split "/"%char s) as [|seg segs]; [contradiction|].
    simpl in H. subst seg. now left.
  - intros H. now rewrite (split_no_sep _ _ H).
Qed.

Lemma hd_split_app (s : string) (l : list string) :
  hd "" (split "/"%char s ++ l) = firstSegment s.
Proof.
  unfold firstSegment. pose proof (split_nonempty "/"%char s) as Hne.
  destruct (split "/"%char s); [contradiction | reflexivity].
Qed.

Lemma split_EditJob_route (id : string) :
  split "/"%char ("/jobs/" ++ id ++ "/edit")
  = "" :: "jobs" :: split "/"%char id ++ ["edit"].
Proof.
  change ("/jobs/" ++ id ++ "/edit")%string
    with ("" ++ String "/" ("jobs" ++ String "/" (id ++ String "/" "edit")))%string.
  now rewrite !split_app_sep.
Qed.

Lemma split_EditTask_route (jobId taskId : string) :
  split "/"%char ("/jobs/" ++ jobId ++ "/tasks/" ++ taskId ++ "/edit")
  = "" :: "jobs" :: split "/"%char jobId
       ++ "tasks" :: split "/"%char taskId ++ ["edit"].
Proof.
  change ("/jobs/" ++ jobId ++ "/tasks/" ++ taskId ++ "/edit")%string
    with ("" ++ String "/" ("jobs" ++ String "/"
            (jobId ++ String "/" ("tasks" ++ String "/"
                                    (taskId ++ String "/" "edit")))))%string.
  now rewrite !split_app_sep.
Qed.

Lemma getJob_Page_inv (store : list EditJob.Job) (id : string) (j : EditJob.Job) :
  EditJob.getJob store id = Page j ->
  truthy id = true /\ find (fun e => Job.id e =? id) store = Some j.
Proof.
  unfold EditJob.getJob, EditJob.useEffect.
  destruct (truthy id); [|discriminate].
  destruct (find (fun e => Job.id e =? id) store) as [j0|]; [|discriminate].
  cbn. intros H. inversion H. now split.
Qed.

Lemma mount_Page_inv (store : list JobTasks.Job) (jobId : string) (j : JobTasks.Job) :
  JobTasks.render (JobTasks.mount store jobId) = Page j ->
  truthy jobId = true /\ find (fun e => Job.id e =? jobId) store = Some j.
Proof.
  unfold JobTasks.mount, JobTasks.useEffect.
  destruct (truthy jobId); [|discriminate].
  destruct (find (fun e => Job.id e =? jobId) store) as [j0|]; [|discriminate].
  cbn. intros H. inversion H. now split.
Qed.

Lemma segment_no_slash (n : nat) (pathname : string) :
  contains "/"%char (segment n pathname) = false.
Proof.
  unfold segment.
  destruct (nth_in_or_default n (split "/"%char pathname) "") as [Hin | ->].
  - now apply (split_segments_no_sep "/"%char pathname).
  - reflexivity.
Qed.

Lemma idOfPath_route_no_slash (part : string) :
  contains "/"%char part = false -> EditJob.idOfPath (EditJob.route part) = part.
Proof.
  intros H. unfold EditJob.idOfPath, EditJob.route, segment.
  now rewrite split_EditJob_route, (split_no_sep _ _ H).
Qed.

Lemma idsOfPath_route_no_slash (jobPart taskPart : string) :
  contains "/"%char jobPart = false ->
  contains "/"%char taskPart = false ->
  EditTask.jobIdOfPath (EditTask.route jobPart taskPart) = jobPart
  /\ EditTask.taskIdOfPath (EditTask.route jobPart taskPart) = taskPart.
Proof.
  intros Hj Ht.
  unfold EditTask.jobIdOfPath, EditTask.taskIdOfPath, EditTask.route, segment.
  now rewrite split_EditTask_route, (split_no_sep _ _ Hj), (split_no_sep _ _ Ht).
Qed.

Lemma getTask_Page_inv
      (store : list EditTask.Job) (jobId taskId : string) (t : Task.t) :
  EditTask.getTask store jobId taskId = Page t ->
  exists j, find (fun e => Job.id e =? jobId) store = Some j
            /\ find (fun e => Task.id e =? taskId) (Job.tasks j) = Some t.
Proof.
  unfold EditTask.getTask, EditTask.useEffect.
  destruct (truthy jobId && truthy taskId); [|discriminate].
  destruct (find (fun e => Job.id e =? jobId) store) as [j|] eqn:Hfj;
    [|discriminate].
  destruct (find (fun e => Task.id e =? taskId) (Job.tasks j)) as [t0|] eqn:Hft;
    [|discriminate].
  cbn. intros H. inversion H; subst t0. exists j. now split.
Qed.

(** X1. The id the edit-job page reads from a pathname.  From a
    pathname of the shape /jobs/<part>/edit it reads the part up to its
    first slash, hence the part itself exactly when the part holds no
    slash.  From no pathname does it read an id holding a slash, so the
    job a pathname makes the page show always carries a slash-free id,
    the third segment of the pathname. *)
Theorem idOfPath_route (part : string) :
  EditJob.idOfPath (EditJob.route part) = firstSegment part
  /\ (EditJob.idOfPath (EditJob.route part) = part
      <-> contains "/"%char part = false)
  /\ (forall pathname, contains "/"%char (EditJob.idOfPath pathname) = false)
  /\ (forall (store : list EditJob.Job) (pathname : string),
         match EditJob.page store pathname with
         | Page j => Job.id j = segment 2 pathname
                     /\ contains "/"%char (Job.id j) = false
         | Loading _ | NotFoundMsg _ => True
         end).
Proof.
  assert (H : EditJob.idOfPath (EditJob.route part) = firstSegment part).
  { unfold EditJob.idOfPath, EditJob.route, segment.
    rewrite split_EditJob_route. cbn [nth].
    rewrite <- (hd_split_app part ["edit"]).
    now destruct (split "/"%char part ++ ["edit"]). }
  split; [assumption|].
  split; [rewrite H; apply firstSegment_fixed_iff|].
  split; [intros pathname; apply segment_no_slash|].
  intros store pathname.
  destruct (EditJob.page store pathname) as [m|m|j] eqn:E; try exact I.
  apply getJob_Page_inv in E. destruct E as [_ Hf].
  apply (find_key_some (@Job.id string)) in Hf. destruct Hf as [_ Hid].
  split; [exact Hid|]. rewrite Hid. apply segment_no_slash.
Qed.

(** X2. The ids the edit-task page reads from a pathname.  From a
    pathname of the shape /jobs/<job part>/tasks/<task part>/edit it
    reads the two parts exactly when neither holds a slash.  The task a
    pathname makes the page show always carries as id the fifth segment
    of the pathname, which holds no slash. *)
Theorem idsOfPath_route (jobPart taskPart : string) :
  ((EditTask.jobIdOfPath (EditTask.route jobPart taskPart) = jobPart
    /\ EditTask.taskIdOfPath (EditTask.route jobPart taskPart) = taskPart)
   <-> (contains "/"%char jobPart = false /\ contains "/"%char taskPart = false))
  /\ (forall (store : list EditTask.Job) (pathname : string),
         match EditTask.page store pathname with
         | Page t => Task.id t = segment 4 pathname
                     /\ contains "/"%char (Task.id t) = false
         | Loading _ | NotFoundMsg _ => True
         end).
Proof.
  split.
  - unfold EditTask.jobIdOfPath, EditTask.taskIdOfPath, EditTask.route, segment.
    rewrite split_EditTask_route.
    assert (H2 : nth 2 ("" :: "jobs" :: split "/"%char jobPart
                           ++ "tasks" :: split "/"%char taskPart ++ ["edit"]) ""
                 = firstSegment jobPart).
    { cbn [nth]. rewrite <- (hd_split_app jobPart
                               ("tasks" :: split "/"%char taskPart ++ ["edit"])).
      now destruct (split "/"%char jobPart
                      ++ "tasks" :: split "/"%char taskPart ++ ["edit"]). }
    rewrite H2. split.
    + intros [Hj Ht]. apply firstSegment_fixed_iff in Hj. split; [assumption|].
      rewrite (split_no_sep _ _ Hj) in Ht. cbn [app nth] in Ht.
      apply firstSegment_fixed_iff. rewrite <- Ht at 2.
      rewrite <- (hd_split_app taskPart ["edit"]).
      now destruct (split "/"%char taskPart ++ ["edit"]).
    + intros [Hj Ht]. split; [now apply firstSegment_fixed_iff|].
      now rewrite (split_no_sep _ _ Hj), (split_no_sep _ _ Ht).
  - intros store pathname.
    destruct (EditTask.page store pathname) as [m|m|t] eqn:E; try exact I.
    apply getTask_Page_inv in E. destruct E as [j [_ Hft]].
    apply (find_key_some Task.id) in Hft. destruct Hft as [_ Hid].
    unfold EditTask.taskIdOfPath in Hid.
    split; [exact Hid|]. rewrite Hid. apply segment_no_slash.
Qed.

(** ** What a lookup shows, for every store *)

Lemma truthy_false_iff (s : string) : truthy s = false <-> s = "".
Proof.
  unfold truthy. destruct (String.eqb_spec s ""); simpl; split; congruence.
Qed.

(** X3. The edit-job page, for every store and id: it shows a job
    exactly when the id is not empty and the job is the one [find]
    gives for it; it shows its not-found message exactly when the id is
    empty or carried by no job; after its effect it never shows the
    loading message.  A job whose id is the empty string is never
    shown. *)
Theorem EditJob_getJob_cases (store : list EditJob.Job) (id : string) :
  (forall j, EditJob.getJob store id = Page j
             <-> id <> "" /\ find (fun e => Job.id e =? id) store = Some j)
  /\ (signal (EditJob.getJob store id) = Some NotFound
      <-> id = "" \/ ~ In id (jobIds store))
  /\ (forall m, EditJob.getJob store id <> Loading m).
Proof.
  unfold EditJob.getJob, EditJob.useEffect.
  destruct (truthy id) eqn:Ht.
  - apply truthy_iff in Ht.
    destruct (find (fun e => Job.id e =? id) store) as [j0|] eqn:Hf;
      cbn [fst EditJob.render EditJob.job EditJob.loading EditJob.initial signal].
    + split; [|split].
      * intros j. split.
        -- intros H. inversion H. now split.
        -- intros [_ H]. now inversion H.
      * split; [discriminate|]. intros [H|H]; [contradiction|].
        apply (find_key_none (@Job.id string)) in H. congruence.
      * discriminate.
    + split; [|split].
      * intros j. split; [discriminate | intros [_ H]; discriminate].
      * split; [|reflexivity]. intros _. right.
        now apply (find_key_none (@Job.id string)).
      * discriminate.
  - apply truthy_false_iff in Ht.
    cbn [fst EditJob.render EditJob.job EditJob.loading EditJob.initial signal].
    split; [|split].
    + intros j. split; [discriminate | intros [H _]; contradiction].
    + split; [now left | reflexivity].
    + discriminate.
Qed.

(** X4. The task-list page, for every store and job id: it shows a
    job exactly when the id is not empty and [find] gives that job; it
    shows its not-found message exactly when the id is not empty and
    carried by no job; with an empty id its effect does nothing and the
    page keeps showing the loading message. *)
Theorem JobTasks_mount_cases (store : list JobTasks.Job) (jobId : string) :
  (forall j, JobTasks.render (JobTasks.mount store jobId) = Page j
             <-> jobId <> "" /\ find (fun e => Job.id e =? jobId) store = Some j)
  /\ (signal (JobTasks.render (JobTasks.mount store jobId)) = Some NotFound
      <-> jobId <> "" /\ ~ In jobId (jobIds store))
  /\ (JobTasks.render (JobTasks.mount store jobId) = Loading "Loading tasks..."
      <-> jobId = "").
Proof.
  unfold JobTasks.mount, JobTasks.useEffect.
  destruct (truthy jobId) eqn:Ht.
  - apply truthy_iff in Ht.
    destruct (find (fun e => Job.id e =? jobId) store) as [j0|] eqn:Hf;
      cbn [fst JobTasks.render JobTasks.job JobTasks.loading JobTasks.initial signal].
    + split; [|split].
      * intros j. split.
        -- intros H. inversion H. now split.
        -- intros [_ H]. now inversion H.
      * split; [discriminate|]. intros [_ H].
        apply (find_key_none (@Job.id Task.t)) in H. congruence.
      * split; [discriminate | intros H; contradiction].
    + split; [|split].
      * intros j. split; [discriminate | intros [_ H]; discriminate].
      * split; [|reflexivity]. intros _. split; [assumption|].
        now apply (find_key_none (@Job.id Task.t)).
      * split; [discriminate | intros H; contradiction].
  - apply truthy_false_iff in Ht.
    cbn [fst JobTasks.render JobTasks.job JobTasks.loading JobTasks.initial signal].
    split; [|split].
    + intros j. split; [discriminate | intros [H _]; contradiction].
    + split; [discriminate | intros [H _]; contradiction].
    + split; [intros _; assumption | reflexivity].
Qed.

(** X5. The edit-task page, for every store and pair of ids: it shows
    a task exactly when both ids are not empty, [find] gives a job for
    the job id and, in that job's tasks, that task for the task id; in
    every other case it shows its not-found message. *)
Theorem EditTask_getTask_cases (store : list EditTask.Job) (jobId taskId : string) :
  (forall t, EditTask.getTask store jobId taskId = Page t
             <-> jobId <> "" /\ taskId <> ""
                 /\ exists j, find (fun e => Job.id e =? jobId) store = Some j
                              /\ find (fun e => Task.id e =? taskId) (Job.tasks j)
                                 = Some t)
  /\ ((exists t, EditTask.getTask store jobId taskId = Page t)
      \/ EditTask.getTask store jobId taskId
         = NotFoundMsg "Task not found. Please check the URL.").
Proof.
  unfold EditTask.getTask, EditTask.useEffect.
  destruct (truthy jobId) eqn:Hj; destruct (truthy taskId) eqn:Ht;
    cbn [andb];
    try apply truthy_iff in Hj; try apply truthy_iff in Ht;
    try apply truthy_false_iff in Hj; try apply truthy_false_iff in Ht.
  - destruct (find (fun e => Job.id e =? jobId) store) as [j0|] eqn:Hfj.
    + destruct (find (fun e => Task.id e =? taskId) (Job.tasks j0)) as [t0|] eqn:Hft;
        cbn [fst EditTask.render EditTask.task EditTask.parentJob EditTask.loading
               EditTask.initial].
      * split.
        -- intros t. split.
           ++ intros H. inversion H; subst t0.
              split; [assumption|]. split; [assumption|]. now exists j0.
           ++ intros [_ [_ [j [H1 H2]]]]. inversion H1; subst j. congruence.
        -- left. now exists t0.
      * split; [|right; reflexivity].
        intros t. split; [discriminate|].
        intros [_ [_ [j [H1 H2]]]]. inversion H1; subst j. congruence.
    + cbn [fst EditTask.render EditTask.task EditTask.parentJob EditTask.loading
             EditTask.initial].
      split; [|right; reflexivity].
      intros t. split; [discriminate|].
      intros [_ [_ [j [H1 _]]]]. discriminate.
  - cbn [fst EditTask.render EditTask.task EditTask.parentJob EditTask.loading
           EditTask.initial].
    split; [|right; reflexivity].
    intros t. split; [discriminate | intros [_ [H _]]; contradiction].
  - cbn [fst EditTask.render EditTask.task EditTask.parentJob EditTask.loading
           EditTask.initial].
    split; [|right; reflexivity].
    intros t. split; [discriminate | intros [H _]; contradiction].
  - cbn [fst EditTask.render EditTask.task EditTask.parentJob EditTask.loading
           EditTask.initial].
    split; [|right; reflexivity].
    intros t. split; [discriminate | intros [H _]; contradiction].
Qed.

Lemma find_first {A : Type} (p : A -> bool) (l : list A) (a : A) :
  find p l = Some a ->
  exists pre post, l = pre ++ a :: post /\ forall x, In x pre -> p x = false.
Proof.
  induction l as [|x l IH]; simpl; [discriminate|].
  destruct (p x) eqn:E.
  - intros H. inversion H; subst x. exists [], l. split; [reflexivity | intros ? []].
  - intros H. destruct (IH H) as [pre [post [Hl Hpre]]].
    exists (x :: pre), post. split; [now rewrite Hl|].
    intros y [<-|Hy]; [assumption | now apply Hpre].
Qed.

(** X6. Of several jobs carrying the same id the pages show the first
    only: the job a lookup shows carries the queried id and no job
    before it in the store does, on the edit-job page and on the
    task-list page. *)
Theorem lookup_shows_first_match :
  (forall (store : list EditJob.Job) (id : string) (j : EditJob.Job),
      EditJob.getJob store id = Page j ->
      Job.id j = id
      /\ exists pre post, store = pre ++ j :: post /\ ~ In id (jobIds pre))
  /\ (forall (store : list JobTasks.Job) (jobId : string) (j : JobTasks.Job),
         JobTasks.render (JobTasks.mount store jobId) = Page j ->
         Job.id j = jobId
         /\ exists pre post, store = pre ++ j :: post /\ ~ In jobId (jobIds pre)).
Proof.
  split.
  - intros store id j H. apply getJob_Page_inv in H.
    destruct H as [_ Hf]. split; [now apply (find_key_some (@Job.id string)) in Hf|].
    destruct (find_first _ _ _ Hf) as [pre [post [Hl Hpre]]].
    exists pre, post. split; [assumption|].
    unfold jobIds. intros Hin. apply in_map_iff in Hin.
    destruct Hin as [x [Hx Hin]]. specialize (Hpre x Hin). simpl in Hpre.
    rewrite Hx, String.eqb_refl in Hpre. discriminate.
  - intros store id j H. apply mount_Page_inv in H.
    destruct H as [_ Hf]. split; [now apply (find_key_some (@Job.id Task.t)) in Hf|].
    destruct (find_first _ _ _ Hf) as [pre [post [Hl Hpre]]].
    exists pre, post. split; [assumption|].
    unfold jobIds. intros Hin. apply in_map_iff in Hin.
    destruct Hin as [x [Hx Hin]]. specialize (Hpre x Hin). simpl in Hpre.
    rewrite Hx, String.eqb_refl in Hpre. discriminate.
Qed.

Lemma lookup_shows_first_match_witness :
  let first : EditJob.Job := Job.mk "7" "first" "" "" "" "" [] in
  let second : EditJob.Job := Job.mk "7" "second" "" "" "" "" [] in
  let first' : JobTasks.Job := Job.mk "7" "first" "" "" "" "" [] in
  let second' : JobTasks.Job := Job.mk "7" "second" "" "" "" "" [] in
  (Job.id first = "7"
   /\ exists pre post, [first; second] = pre ++ first :: post /\ ~ In "7" (jobIds pre))
  /\ (Job.id first' = "7"
      /\ exists pre post,
          [first'; second'] = pre ++ first' :: post /\ ~ In "7" (jobIds pre)).
Proof.
  intros first second first' second'. split.
  - apply (proj1 lookup_shows_first_match [first; second] "7" first). reflexivity.
  - apply (proj2 lookup_shows_first_match [first'; second'] "7" first'). reflexivity.
Defined.

(** X7. When a load effect redirects.  The edit-job page and the
    task-list page push "/404" exactly when the id is not empty and
    carried by no job of the store; the edit-task page exactly when
    both ids are not empty and either no job carries the job id or the
    job found holds no task with the task id.  With an empty id no page
    redirects. *)
Theorem redirect_404_iff :
  (forall (store : list EditJob.Job) (id : string) (st : EditJob.State),
      In (RouterPush "/404") (snd (EditJob.useEffect store id st))
      <-> id <> "" /\ ~ In id (jobIds store))
  /\ (forall (store : list JobTasks.Job) (jobId : string) (st : JobTasks.State),
         In (RouterPush "/404") (snd (JobTasks.useEffect store jobId st))
         <-> jobId <> "" /\ ~ In jobId (jobIds store))
  /\ (forall (store : list EditTask.Job) (jobId taskId : string) (st : EditTask.State),
         In (RouterPush "/404") (snd (EditTask.useEffect store jobId taskId st))
         <-> jobId <> "" /\ taskId <> ""
             /\ (~ In jobId (jobIds store)
                 \/ exists j, find (fun e => Job.id e =? jobId) store = Some j
                              /\ ~ In taskId (taskIds (Job.tasks j)))).
Proof.
  split; [|split].
  - intros store id st. unfold EditJob.useEffect.
    destruct (truthy id) eqn:Ht.
    + apply truthy_iff in Ht.
      destruct (find (fun e => Job.id e =? id) store) as [j|] eqn:Hf; simpl.
      * split; [intros []|]. intros [_ H].
        apply (find_key_none (@Job.id string)) in H. congruence.
      * split; [|intros _; right; now left]. intros _. split; [assumption|].
        now apply (find_key_none (@Job.id string)).
    + apply truthy_false_iff in Ht. simpl.
      split; [intros [] | intros [H _]; contradiction].
  - intros store id st. unfold JobTasks.useEffect.
    destruct (truthy id) eqn:Ht.
    + apply truthy_iff in Ht.
      destruct (find (fun e => Job.id e =? id) store) as [j|] eqn:Hf; simpl.
      * split; [intros []|]. intros [_ H].
        apply (find_key_none (@Job.id Task.t)) in H. congruence.
      * split; [|intros _; right; now left]. intros _. split; [assumption|].
        now apply (find_key_none (@Job.id Task.t)).
    + apply truthy_false_iff in Ht. simpl.
      split; [intros [] | intros [H _]; contradiction].
  - intros store jobId taskId st. unfold EditTask.useEffect.
    destruct (truthy jobId) eqn:Hj; destruct (truthy taskId) eqn:Ht; cbn [andb];
      try apply truthy_iff in Hj; try apply truthy_iff in Ht;
      try apply truthy_false_iff in Hj; try apply truthy_false_iff in Ht.
    + destruct (find (fun e => Job.id e =? jobId) store) as [j|] eqn:Hfj.
      * destruct (find (fun e => Task.id e =? taskId) (Job.tasks j)) as [t|] eqn:Hft;
          simpl.
        -- split; [intros []|]. intros [_ [_ [H|[j' [H1 H2]]]]].
           ++ apply (find_key_none (@Job.id Task.t)) in H. congruence.
           ++ inversion H1; subst j'. apply (find_key_none Task.id) in H2. congruence.
        -- split; [|intros _; right; now left]. intros _.
           split; [assumption|]. split; [assumption|]. right. exists j.
           split; [reflexivity | now apply (find_key_none Task.id)].
      * simpl. split; [|intros _; right; now left]. intros _.
        split; [assumption|]. split; [assumption|]. left.
        now apply (find_key_none (@Job.id Task.t)).
    + simpl. split; [intros [] | intros [_ [H _]]; contradiction].
    + simpl. split; [intros [] | intros [H _]; contradiction].
    + simpl. split; [intros [] | intros [H _]; contradiction].
Qed.

(** ** Editing a form *)

Lemma job_ext (a b : EditJob.Job) :
  Job.id a = Job.id b -> Job.tasks a = Job.tasks b ->
  (forall name, EditJob.field name a = EditJob.field name b) ->
  a = b.
Proof.
  destruct a, b. simpl. intros -> -> H.
  pose proof (H EditJob.in_jobName). pose proof (H EditJob.in_clientName).
  pose proof (H EditJob.in_gateCode). pose proof (H EditJob.in_notes).
  pose proof (H EditJob.in_status). simpl in *. congruence.
Qed.

Lemma EditJob_applyPatch_none (patch : EditJob.Patch) (l : bool) :
  EditJob.applyPatch patch (EditJob.mkState None l) = EditJob.mkState None l.
Proof.
  induction patch as [|[n v] rest IH]; unfold EditJob.applyPatch in *; simpl;
    [reflexivity | exact IH].
Qed.

Lemma EditTask_applyPatch_none (patch : EditTask.Patch) (p : option EditTask.Job)
      (l : bool) :
  EditTask.applyPatch patch (EditTask.mkState None p l) = EditTask.mkState None p l.
Proof.
  induction patch as [|c rest IH]; unfold EditTask.applyPatch in *; simpl;
    [reflexivity | exact IH].
Qed.

Lemma patchTask_keeps_id (patch : EditTask.Patch) :
  forall t, Task.id (patchTask patch t) = Task.id t.
Proof.
  induction patch as [|c rest IH]; intros t; unfold patchTask in *; simpl.
  - reflexivity.
  - rewrite IH. destruct c as [[| | |] v|b]; reflexivity.
Qed.

(** X8. A change event of the edit-job form behaves as a field
    update: the control then holds the typed value; a second change of
    the same control overrides the first; changes of two different
    controls can be swapped; typing the value a control already holds
    changes nothing. *)
Theorem handleChange_field_laws
        (st : EditJob.State) (n n' : EditJob.InputName) (v v' : string) :
  option_map (EditJob.field n) (EditJob.job (EditJob.handleChange n v st))
  = option_map (fun _ => v) (EditJob.job st)
  /\ EditJob.handleChange n v' (EditJob.handleChange n v st)
     = EditJob.handleChange n v' st
  /\ (n <> n' ->
      EditJob.handleChange n v (EditJob.handleChange n' v' st)
      = EditJob.handleChange n' v' (EditJob.handleChange n v st))
  /\ (forall j, EditJob.job st = Some j ->
                EditJob.handleChange n (EditJob.field n j) st = st).
Proof.
  destruct st as [[j|] l]; unfold EditJob.handleChange; simpl.
  - split; [now destruct n|].
    split; [now destruct n|].
    split.
    + intros Hne. destruct n, n'; try reflexivity; now contradiction Hne.
    + intros j' H. inversion H; subst j'. destruct j, n; reflexivity.
  - split; [reflexivity|]. split; [reflexivity|].
    split; [reflexivity | discriminate].
Qed.

Lemma handleChange_field_laws_witness :
  let j : EditJob.Job := Job.mk "1" "Lot 3" "Cindy McKinny" "In Progress" "4729" "" [] in
  let st := EditJob.mkState (Some j) false in
  EditJob.handleChange EditJob.in_notes "x"
    (EditJob.handleChange EditJob.in_status "Completed" st)
  = EditJob.handleChange EditJob.in_status "Completed"
      (EditJob.handleChange EditJob.in_notes "x" st)
  /\ EditJob.handleChange EditJob.in_gateCode "4729" st = st.
Proof.
  intros j st.
  destruct (handleChange_field_laws st EditJob.in_notes EditJob.in_status
              "x" "Completed") as [_ [_ [Hswap _]]].
  destruct (handleChange_field_laws st EditJob.in_gateCode EditJob.in_gateCode
              "" "") as [_ [_ [_ Hsame]]].
  split; [apply Hswap; discriminate | apply (Hsame j); reflexivity].
Defined.

(** X9. What a patch of the edit-job form leaves behind depends only
    on the last value it gives each control: two sequences of change
    events that agree on that end in the same state, from every
    state. *)
Theorem applyPatch_last_values (p1 p2 : EditJob.Patch) (st : EditJob.State) :
  (forall name, lastValue name p1 = lastValue name p2) ->
  EditJob.applyPatch p1 st = EditJob.applyPatch p2 st.
Proof.
  intros H. destruct st as [[j|] l].
  - rewrite !EditJob_applyPatch_some. f_equal. f_equal.
    destruct (patchJob_keeps_id_tasks p1 j) as [Hi1 Ht1].
    destruct (patchJob_keeps_id_tasks p2 j) as [Hi2 Ht2].
    apply job_ext; [congruence | congruence |].
    intros name. now rewrite !field_patchJob, H.
  - now rewrite !EditJob_applyPatch_none.
Qed.

Lemma applyPatch_last_values_witness :
  let st := EditJob.mkState
              (Some (Job.mk "1" "Lot 3" "Cindy McKinny" "In Progress" "4729" "" []))
              false in
  EditJob.applyPatch
    [(EditJob.in_jobName, "Lot"); (EditJob.in_notes, "x"); (EditJob.in_jobName, "Lot 4")]
    st
  = EditJob.applyPatch [(EditJob.in_jobName, "Lot 4"); (EditJob.in_notes, "x")] st.
Proof.
  intros st. apply applyPatch_last_values. intros name. destruct name; reflexivity.
Defined.

(** X10. No sequence of change events reaches anything but the form's
    own fields.  On the edit-job page the job keeps its id and its
    tasks, on the edit-task page the task keeps its id and the page its
    parent job; neither page's loading flag changes, and a page that
    holds no entity is left as it is. *)
Theorem applyPatch_frame :
  (forall (patch : EditJob.Patch) (st : EditJob.State),
      EditJob.applyPatch patch st
      = EditJob.mkState (option_map (patchJob patch) (EditJob.job st))
                        (EditJob.loading st))
  /\ (forall (patch : EditJob.Patch) (j : EditJob.Job),
         Job.id (patchJob patch j) = Job.id j
         /\ Job.tasks (patchJob patch j) = Job.tasks j)
  /\ (forall (patch : EditTask.Patch) (st : EditTask.State),
         EditTask.applyPatch patch st
         = EditTask.mkState (option_map (patchTask patch) (EditTask.task st))
                            (EditTask.parentJob st) (EditTask.loading st))
  /\ (forall (patch : EditTask.Patch) (t : Task.t),
         Task.id (patchTask patch t) = Task.id t).
Proof.
  split; [|split; [|split]].
  - intros patch [[j|] l]; simpl;
      [apply EditJob_applyPatch_some | apply EditJob_applyPatch_none].
  - intros patch j. apply patchJob_keeps_id_tasks.
  - intros patch [[t|] p l]; simpl;
      [apply EditTask_applyPatch_some | apply EditTask_applyPatch_none].
  - intros patch t. apply patchTask_keeps_id.
Qed.

Lemma EditTask_render_Page_inv (st : EditTask.State) (t : Task.t) :
  EditTask.render st = Page t ->
  exists p, st = EditTask.mkState (Some t) (Some p) false.
Proof.
  destruct st as [[t'|] [p|] [|]]; unfold EditTask.render; simpl;
    intros H; inversion H. now exists p.
Qed.

(** X11. Submitting the edit-task form always returns to the task
    list of the parent job.  Whenever the form is on screen, whatever
    was typed into it, the submit handler logs the edited task, and the
    one path it pushes is "/jobs/<id of the parent job>/tasks", the
    path of the "View Tasks" link of a card with that id; the fallback
    path "/jobs" is never pushed. *)
Theorem EditTask_submit_returns_to_task_list
        (st : EditTask.State) (t : Task.t) (patch : EditTask.Patch) :
  EditTask.render st = Page t ->
  exists p,
    EditTask.parentJob st = Some p
    /\ EditTask.handleSubmit (EditTask.applyPatch patch st)
       = [ ConsoleLog "Saving changes for task:" (Some (patchTask patch t));
           Alert "Task updated! (Simulated save)";
           RouterPush ("/jobs/" ++ Job.id p ++ "/tasks") ]
    /\ (forall card : Jobs.Job,
           Job.id card = Job.id p ->
           Jobs.tasksHref card = ("/jobs/" ++ Job.id p ++ "/tasks")%string)
    /\ ~ In (RouterPush "/jobs")
            (EditTask.handleSubmit (EditTask.applyPatch patch st)).
Proof.
  intros Hr. destruct (EditTask_render_Page_inv _ _ Hr) as [p ->].
  exists p. rewrite EditTask_applyPatch_some.
  unfold EditTask.handleSubmit. simpl.
  split; [reflexivity|]. split; [reflexivity|].
  split; [intros card Hc; unfold Jobs.tasksHref; now rewrite Hc|].
  intros [H|[H|[H|[]]]]; discriminate.
Qed.

Lemma EditTask_submit_returns_to_task_list_witness :
  exists p,
    EditTask.parentJob (fst (EditTask.useEffect EditTask.initialJobs "2" "2-1"
                               EditTask.initial)) = Some p
    /\ In (RouterPush "/jobs/2/tasks")
          (EditTask.handleSubmit
             (EditTask.applyPatch [EditTask.TextChange EditTask.in_notes "done"]
                (fst (EditTask.useEffect EditTask.initialJobs "2" "2-1"
                        EditTask.initial)))).
Proof.
  destruct (EditTask_submit_returns_to_task_list
              (fst (EditTask.useEffect EditTask.initialJobs "2" "2-1" EditTask.initial))
              (Task.mk "2-1" "Demo" "demo pre-existing pool" false "2025-06-20"
                       "Check soil/ground conditions")
              [EditTask.TextChange EditTask.in_notes "done"] eq_refl)
    as [p [Hp [Hs _]]].
  exists p. split; [assumption|]. rewrite Hs.
  vm_compute in Hp. inversion Hp; subst p. vm_compute. tauto.
Defined.

(** ** Runs of clicks on the task list *)

Lemma toggled_cons (a : string) (ids : list string) (t : Task.t) :
  toggled ids (if Task.id t =? a then JobTasks.flip t else t) = toggled (a :: ids) t.
Proof.
  unfold toggled. simpl count_occ.
  destruct (String.eqb_spec (Task.id t) a) as [E|E].
  - destruct (string_dec a (Task.id t)) as [_|N]; [|now contradiction N].
    change (Task.id (JobTasks.flip t)) with (Task.id t).
    rewrite Nat.odd_succ, <- Nat.negb_odd.
    destruct (Nat.odd (count_occ string_dec ids (Task.id t))); simpl;
      [apply flip_involutive | reflexivity].
  - destruct (string_dec a (Task.id t)) as [Y|_]; [now contradiction E | reflexivity].
Qed.

Lemma clicks_closed_form (ids : list string) :
  forall st, clicks ids st
             = JobTasks.mkState (option_map (toggledJob ids) (JobTasks.job st))
                                (JobTasks.loading st).
Proof.
  induction ids as [|a ids IH]; intros [[j|] l]; unfold clicks in *; simpl.
  - unfold toggledJob, toggled. simpl. rewrite map_id. now destruct j.
  - reflexivity.
  - rewrite IH. simpl. unfold toggledJob. simpl.
    unfold JobTasks.updatedTasks. rewrite map_map.
    do 3 f_equal. apply map_ext. intros t. apply toggled_cons.
  - rewrite IH. reflexivity.
Qed.

Lemma toggled_keeps_id (ids : list string) (t : Task.t) :
  Task.id (toggled ids t) = Task.id t.
Proof. unfold toggled. now destruct (Nat.odd _). Qed.

(** X12. After any run of clicks the page holds the job it held, with
    the same fields, the same tasks in the same order under the same
    ids, each task negated in [completed] when the clicks on its id are
    odd in number and untouched otherwise; the loading flag is as it
    was and a page without a job stays without one. *)
Theorem clicks_parity (ids : list string) (st : JobTasks.State) :
  clicks ids st
  = JobTasks.mkState (option_map (toggledJob ids) (JobTasks.job st))
                     (JobTasks.loading st)
  /\ (forall j, same_but_tasks j (toggledJob ids j)
                /\ taskIds (Job.tasks (toggledJob ids j)) = taskIds (Job.tasks j))
  /\ (forall t, same_but_completed t (toggled ids t)
                /\ Task.completed (toggled ids t)
                   = xorb (Task.completed t)
                          (Nat.odd (count_occ string_dec ids (Task.id t)))).
Proof.
  split; [apply clicks_closed_form|]. split.
  - intros j. split; [unfold same_but_tasks; simpl; tauto|].
    unfold taskIds, toggledJob. simpl. rewrite map_map.
    apply map_ext. intros t. apply toggled_keeps_id.
  - intros t. unfold toggled, same_but_completed.
    destruct (Nat.odd (count_occ string_dec ids (Task.id t))); simpl.
    + repeat split; now rewrite ?xorb_true_r.
    + repeat split; now rewrite ?xorb_false_r.
Qed.

(** X13. The order of the clicks does not matter: two runs of clicks
    that are permutations of each other leave the page in the same
    state. *)
Theorem clicks_permutation (ids ids' : list string) (st : JobTasks.State) :
  Permutation ids ids' -> clicks ids st = clicks ids' st.
Proof.
  intros HP. rewrite !clicks_closed_form. f_equal.
  destruct (JobTasks.job st) as [j|]; [|reflexivity]. simpl.
  unfold toggledJob. do 2 f_equal. apply map_ext. intros t.
  unfold toggled.
  now rewrite (proj1 (Permutation_count_occ string_dec ids ids') HP (Task.id t)).
Qed.

Lemma clicks_permutation_witness :
  clicks ["1-2"; "1-1"; "1-2"] (JobTasks.mount JobTasks.initialJobs "1")
  = clicks ["1-1"; "1-2"; "1-2"] (JobTasks.mount JobTasks.initialJobs "1").
Proof.
  apply clicks_permutation. apply perm_swap.
Defined.

(** ** From a pathname to the page it opens *)

Lemma find_NoDup {A : Type} (key : A -> string) (l : list A) (a : A) :
  NoDup (map key l) -> In a l -> find (fun e => key e =? key a) l = Some a.
Proof.
  induction l as [|x l IH]; simpl; intros Hnd Hin; [contradiction|].
  inversion Hnd as [|? ? Hx Hnd']; subst.
  destruct Hin as [->|Hin].
  - now rewrite String.eqb_refl.
  - destruct (String.eqb_spec (key x) (key a)) as [E|E].
    + exfalso. apply Hx. rewrite E. now apply in_map.
    + now apply IH.
Qed.

(** X14. Entered at the pathname /jobs/<id>/edit, the edit-job page
    shows exactly the job that carries <id>, when the store holds that
    job, repeats no id, and the id is not empty and holds no slash. *)
Theorem route_opens_job (store : list EditJob.Job) (job : EditJob.Job) :
  In job store ->
  NoDup (jobIds store) ->
  Job.id job <> "" ->
  contains "/"%char (Job.id job) = false ->
  EditJob.page store (EditJob.route (Job.id job)) = Page job.
Proof.
  intros Hin Hnd Hne Hns. unfold EditJob.page.
  rewrite (idOfPath_route_no_slash _ Hns).
  apply getJob_found; [now apply truthy_iff|].
  now apply (find_NoDup (@Job.id string)).
Qed.

Lemma route_opens_job_witness :
  EditJob.page EditJob.allJobs "/jobs/2/edit"
  = Page (Job.mk "2" "Sage Thrasher" "X" "Scheduled" "" ""
                 ["Demo"; "Steel"; "Plumbing"]).
Proof.
  apply (route_opens_job EditJob.allJobs
           (Job.mk "2" "Sage Thrasher" "X" "Scheduled" "" ""
                   ["Demo"; "Steel"; "Plumbing"])).
  - simpl. tauto.
  - repeat constructor; simpl; intuition discriminate.
  - discriminate.
  - reflexivity.
Defined.

(** X15. The toggles made on the task list do not reach the edit-task
    page.  After any run of clicks, take a task the list shows, its ids
    not empty and free of slashes, in a list without repeated task ids:
    entered at the pathname /jobs/<job id>/tasks/<task id>/edit, the
    edit-task page shows a task of the seed job, the one from which the
    listed task results by the clicks, so with [completed] as the seed
    has it. *)
Theorem row_route_opens_seed_task
        (store : list JobTasks.Job) (jobId : string) (ids : list string)
        (j' : JobTasks.Job) (t' : Task.t) :
  JobTasks.render (clicks ids (JobTasks.mount store jobId)) = Page j' ->
  In t' (Job.tasks j') ->
  NoDup (taskIds (Job.tasks j')) ->
  Task.id t' <> "" ->
  contains "/"%char (Job.id j') = false ->
  contains "/"%char (Task.id t') = false ->
  exists j t0,
    JobTasks.render (JobTasks.mount store jobId) = Page j
    /\ In t0 (Job.tasks j)
    /\ EditTask.page store (EditTask.route (Job.id j') (Task.id t')) = Page t0
    /\ t' = toggled ids t0.
Proof.
  intros Hr Hin Hnd Hne Hsj Hst.
  rewrite clicks_closed_form in Hr. apply render_Page_inv in Hr.
  destruct (JobTasks.mount store jobId) as [[j|] l] eqn:Hm; simpl in Hr;
    inversion Hr as [[Hj' Hl]]; subst l.
  assert (Hpage : JobTasks.render (JobTasks.mount store jobId) = Page j)
    by now rewrite Hm.
  destruct (mount_Page_inv _ _ _ Hpage) as [Htj Hfj].
  pose proof (proj2 (find_key_some (@Job.id Task.t) _ _ _ Hfj)) as Hid.
  subst j'. clear Hr. simpl in Hin, Hsj.
  apply in_map_iff in Hin. destruct Hin as [t0 [Ht0 Hin0]].
  assert (Hids : taskIds (Job.tasks (toggledJob ids j)) = taskIds (Job.tasks j)).
  { unfold taskIds, toggledJob. simpl. rewrite map_map.
    apply map_ext. intros t. apply toggled_keeps_id. }
  rewrite Hids in Hnd.
  pose proof (find_NoDup Task.id _ _ Hnd Hin0) as Hft.
  assert (Hidt : Task.id t' = Task.id t0)
    by (rewrite <- Ht0; apply toggled_keeps_id).
  exists j, t0. split; [reflexivity|]. split; [assumption|].
  split; [|now symmetry].
  unfold EditTask.page.
  destruct (idsOfPath_route_no_slash (Job.id (toggledJob ids j)) (Task.id t') Hsj Hst)
    as [-> ->].
  simpl. rewrite Hid.
  apply (getTask_found store jobId (Task.id t') j t0);
    [assumption | now apply truthy_iff | assumption | now rewrite Hidt].
Qed.

Lemma row_route_opens_seed_task_witness :
  exists t0,
    EditTask.page JobTasks.initialJobs "/jobs/1/tasks/1-2/edit" = Page t0
    /\ Task.completed t0 = false
    /\ Task.mk "1-2" "Steel" "Jaime Steel" true "2025-06-16" "" = toggled ["1-2"] t0.
Proof.
  destruct (row_route_opens_seed_task
              JobTasks.initialJobs "1" ["1-2"]
              (toggledJob ["1-2"] (hd (Job.mk "" "" "" "" "" "" []) JobTasks.initialJobs))
              (Task.mk "1-2" "Steel" "Jaime Steel" true "2025-06-16" ""))
    as [j [t0 [_ [_ [Hp Ht]]]]].
  - reflexivity.
  - simpl. tauto.
  - repeat constructor; simpl; intuition discriminate.
  - discriminate.
  - reflexivity.
  - reflexivity.
  - exists t0. split; [exact Hp|]. split; [|exact Ht].
    vm_compute in Hp. inversion Hp. reflexivity.
Defined.

(** X16. A path too short to hold the id.  With fewer than three
    segments the edit-job page reads an empty id, with fewer than five
    the edit-task page reads an empty task id; either page then shows
    its not-found message, for every store, and its effect neither logs
    nor redirects. *)
Theorem short_path_not_found (pathname : string) :
  (length (split "/"%char pathname) <= 2 ->
   forall store : list EditJob.Job,
     EditJob.page store pathname = NotFoundMsg "Job not found. Please check the URL."
     /\ snd (EditJob.useEffect store (EditJob.idOfPath pathname) EditJob.initial) = [])
  /\ (length (split "/"%char pathname) <= 4 ->
      forall store : list EditTask.Job,
        EditTask.page store pathname
        = NotFoundMsg "Task not found. Please check the URL."
        /\ snd (EditTask.useEffect store (EditTask.jobIdOfPath pathname)
                  (EditTask.taskIdOfPath pathname) EditTask.initial) = []).
Proof.
  split.
  - intros Hlen store.
    unfold EditJob.page, EditJob.getJob, EditJob.idOfPath, segment.
    rewrite (nth_overflow _ _ Hlen). split; reflexivity.
  - intros Hlen store.
    unfold EditTask.page, EditTask.getTask, EditTask.taskIdOfPath, segment.
    rewrite (nth_overflow _ _ Hlen). unfold EditTask.useEffect.
    rewrite andb_false_r. split; reflexivity.
Qed.

Lemma short_path_not_found_witness :
  (EditJob.page EditJob.allJobs "/jobs"
   = NotFoundMsg "Job not found. Please check the URL."
   /\ snd (EditJob.useEffect EditJob.allJobs (EditJob.idOfPath "/jobs") EditJob.initial)
      = [])
  /\ (EditTask.page EditTask.initialJobs "/jobs/1/tasks"
      = NotFoundMsg "Task not found. Please check the URL."
      /\ snd (EditTask.useEffect EditTask.initialJobs
                (EditTask.jobIdOfPath "/jobs/1/tasks")
                (EditTask.taskIdOfPath "/jobs/1/tasks") EditTask.initial) = []).
Proof.
  split.
  - apply (proj1 (short_path_not_found "/jobs")). simpl. apply le_n.
  - apply (proj2 (short_path_not_found "/jobs/1/tasks")). simpl. apply le_n.
Defined.
